(** * Lesson-plan analysis service ([src/services/geminiService.ts])

    A shallow embedding of [analyzeLessonPlanWithGemini] together with the
    part of the JavaScript runtime it relies on: strings as sequences of
    UTF-16 code units, [String.prototype.trim], [JSON.parse], object spread,
    property reads and writes in strict (module) code, [Date.now] and the
    remote generation call.  The effects of the function (console output,
    the outbound request, clock reads) are threaded through an explicit
    state, and exceptions through a sum type.  The module constant
    [initialObjective] of line 4 is not used by the function and is left
    out. *)

From Stdlib Require Import ZArith NArith String Ascii List.
From stdpp Require Import base option list gmap strings pretty.

#[local] Open Scope N_scope.

(** ** Strings *)

(** A JavaScript string is a finite sequence of 16-bit code units. *)
Abbreviation code_unit := N (only parsing).
Abbreviation jsstring := (list N) (only parsing).

Definition continuation (a : ascii) : N := N.land (N_of_ascii a) 63.

(** The source file is UTF-8 text; a string literal of the source denotes the
    UTF-16 encoding of the characters between its quotes.  [utf16] reads the
    bytes of a literal and yields its code units (U+FFFD where the bytes are
    cut short, which no literal below is). *)
Fixpoint utf16 (s : string) : list N :=
  match s with
  | EmptyString => []
  | String a s1 =>
    let b := N_of_ascii a in
    if b <? 128 then b :: utf16 s1
    else match s1 with
    | EmptyString => [65533]
    | String a1 s2 =>
      if b <? 224 then (N.land b 31 * 64 + continuation a1) :: utf16 s2
      else match s2 with
      | EmptyString => [65533]
      | String a2 s3 =>
        if b <? 240
        then ((N.land b 15 * 64 + continuation a1) * 64 + continuation a2) :: utf16 s3
        else match s3 with
        | EmptyString => [65533]
        | String a3 s4 =>
          let cp := ((N.land b 7 * 64 + continuation a1) * 64 + continuation a2) * 64
                    + continuation a3 in
          (55296 + (cp - 65536) / 1024) :: (56320 + (cp - 65536) mod 1024) :: utf16 s4
        end
      end
    end
  end.

#[global] Arguments utf16 : simpl never.

(** The code units of a string made of ASCII characters only. *)
Definition ascii_units (s : string) : list N :=
  N_of_ascii <$> list_ascii_of_string s.

(** [Number.prototype.toString] on an integer: the decimal digits, with a
    leading minus sign below zero.  The integers the function prints are
    array indices and clock readings, whose magnitude stays below 1e21, where
    JavaScript switches to exponent notation. *)
Definition Number_toString (z : Z) : list N := ascii_units (pretty z).

#[global] Arguments Number_toString : simpl never.

(** WhiteSpace and LineTerminator code units, the ones [trim] strips. *)
Definition is_white_space (c : N) : bool :=
  bool_decide (c ∈ [9; 10; 11; 12; 13; 32; 160; 5760; 8232; 8233; 8239; 8287; 12288; 65279])
  || ((8192 <=? c) && (c <=? 8202)).

Fixpoint trim_start (s : list N) : list N :=
  match s with
  | [] => []
  | c :: r => if is_white_space c then trim_start r else s
  end.

Definition trim_end (s : list N) : list N := reverse (trim_start (reverse s)).

(** [String.prototype.trim]. *)
Definition trim (s : list N) : list N := trim_end (trim_start s).

(** ** Values *)

(** JavaScript values, as far as [JSON.parse] and the function build them.  A
    number is kept as the decimal it was read from,
    [(-1)^negative * mantissa * 10^exponent]; the function never computes with
    numbers, it only tests them for truthiness.  An object is a finite map
    from property names to values; an array is an object too, and carries the
    named properties assigned to it next to its items. *)
#[warnings="-register-all"]
Inductive JSValue : Type :=
| VNull
| VBool (b : bool)
| VNum (negative : bool) (mantissa : N) (exponent : Z)
| VStr (s : list N)
| VArr (items : list JSValue) (own : gmap (list N) JSValue)
| VObj (props : gmap (list N) JSValue).

(** ** JSON.parse *)

Inductive token : Type :=
| TLBrace | TRBrace | TLBracket | TRBracket | TColon | TComma
| TValue (v : JSValue).

(** JSON white space: space, tab, line feed, carriage return. *)
Definition is_json_ws (c : N) : bool := bool_decide (c ∈ [32; 9; 10; 13]).

Definition is_digit (c : N) : bool := (48 <=? c) && (c <=? 57).

Definition hex_digit (c : N) : option N :=
  if (48 <=? c) && (c <=? 57) then Some (c - 48)
  else if (65 <=? c) && (c <=? 70) then Some (c - 55)
  else if (97 <=? c) && (c <=? 102) then Some (c - 87)
  else None.

(** The character after a backslash, other than [u]. *)
Definition escape (c : N) : option N :=
  if c =? 34 then Some 34        (* quotation mark *)
  else if c =? 92 then Some 92   (* reverse solidus *)
  else if c =? 47 then Some 47   (* solidus *)
  else if c =? 98 then Some 8    (* b: backspace *)
  else if c =? 102 then Some 12  (* f: form feed *)
  else if c =? 110 then Some 10  (* n: line feed *)
  else if c =? 114 then Some 13  (* r: carriage return *)
  else if c =? 116 then Some 9   (* t: tab *)
  else None.

(** The rest of a string token, after its opening quote: the string it
    denotes and the number of code units read, closing quote included. *)
Fixpoint lex_string (s : list N) : option (list N * nat) :=
  match s with
  | [] => None
  | c :: r =>
    if c =? 34 then Some ([], 1%nat)
    else if c =? 92 then
      match r with
      | [] => None
      | e :: r1 =>
        if e =? 117 then
          match r1 with
          | h1 :: h2 :: h3 :: h4 :: r2 =>
            d1 ← hex_digit h1; d2 ← hex_digit h2;
            d3 ← hex_digit h3; d4 ← hex_digit h4;
            '(str, n) ← lex_string r2;
            Some ((((d1 * 16 + d2) * 16 + d3) * 16 + d4) :: str, (6 + n)%nat)
          | _ => None
          end
        else
          u ← escape e;
          '(str, n) ← lex_string r1;
          Some (u :: str, (2 + n)%nat)
      end
    else if c <? 32 then None
    else '(str, n) ← lex_string r; Some (c :: str, S n)
  end.

Fixpoint span_digits (s : list N) : list N * list N :=
  match s with
  | [] => ([], [])
  | c :: r =>
    if is_digit c then let '(ds, r') := span_digits r in (c :: ds, r')
    else ([], s)
  end.

Definition digits_value (ds : list N) : N :=
  foldl (λ acc d, acc * 10 + (d - 48)) 0 ds.

(** A number token at the head of [s]: its value and its length. *)
Definition lex_number (s : list N) : option (JSValue * nat) :=
  let '(neg, s1) :=
    match s with
    | c :: r => if c =? 45 then (true, r) else (false, s)
    | [] => (false, s)
    end in
  let '(int, s2) := span_digits s1 in
  match int with
  | [] => None
  | d :: ds =>
    if (d =? 48) && negb (bool_decide (ds = [])) then None
    else
      '(frac, s3, nfrac) ←
        match s2 with
        | c :: r =>
          if c =? 46 then
            let '(fr, r') := span_digits r in
            if bool_decide (fr = []) then None else Some (fr, r', S (length fr))
          else Some ([], s2, 0%nat)
        | [] => Some ([], s2, 0%nat)
        end;
      '(ex, nex) ←
        match s3 with
        | c :: r =>
          if (c =? 101) || (c =? 69) then
            let '(eneg, r1, nsign) :=
              match r with
              | g :: r' =>
                if g =? 43 then (false, r', 1%nat)
                else if g =? 45 then (true, r', 1%nat)
                else (false, r, 0%nat)
              | [] => (false, r, 0%nat)
              end in
            let '(eds, _) := span_digits r1 in
            if bool_decide (eds = []) then None
            else
              let e := Z.of_N (digits_value eds) in
              Some (if eneg then (- e)%Z else e, (1 + nsign + length eds)%nat)
          else Some (0%Z, 0%nat)
        | [] => Some (0%Z, 0%nat)
        end;
      Some (VNum neg (digits_value (int ++ frac)) (ex - Z.of_nat (length frac))%Z,
            ((if neg then 1 else 0) + length int + nfrac + nex)%nat)
  end.

Definition starts_with (p s : list N) : bool :=
  bool_decide (take (length p) s = p).

(** The tokens of a JSON text.  [skip] counts the code units that the token
    just read still covers. *)
Fixpoint lex (skip : nat) (s : list N) : option (list token) :=
  match s with
  | [] => Some []
  | c :: r =>
    match skip with
    | S k => lex k r
    | O =>
      if is_json_ws c then lex 0 r
      else if c =? 123 then (TLBrace ::.) <$> lex 0 r
      else if c =? 125 then (TRBrace ::.) <$> lex 0 r
      else if c =? 91 then (TLBracket ::.) <$> lex 0 r
      else if c =? 93 then (TRBracket ::.) <$> lex 0 r
      else if c =? 58 then (TColon ::.) <$> lex 0 r
      else if c =? 44 then (TComma ::.) <$> lex 0 r
      else if c =? 34 then
        '(str, n) ← lex_string r; (TValue (VStr str) ::.) <$> lex n r
      else if (c =? 45) || is_digit c then
        '(v, n) ← lex_number s; (TValue v ::.) <$> lex (n - 1) r
      else if starts_with (ascii_units "null") s then
        (TValue VNull ::.) <$> lex 3 r
      else if starts_with (ascii_units "true") s then
        (TValue (VBool true) ::.) <$> lex 3 r
      else if starts_with (ascii_units "false") s then
        (TValue (VBool false) ::.) <$> lex 4 r
      else None
    end
  end.

(** The containers whose closing bracket has not been read yet. *)
Inductive frame : Type :=
| FArray (rev_items : list JSValue)
| FObject (props : gmap (list N) JSValue)
| FMember (props : gmap (list N) JSValue) (key : list N).

Inductive mode : Type :=
| MValue      (* a value must follow *)
| MFirst      (* after [: a value or ] *)
| MFirstKey   (* after {: a member name or } *)
| MKey        (* after a comma in an object: a member name *)
| MColon      (* after a member name *)
| MAfter      (* after a value inside a container *)
| MDone (v : JSValue).

(** A complete value goes to the innermost open container, or is the result.
    A member name that occurs twice keeps its last value. *)
Definition deliver (v : JSValue) (stack : list frame) : option (mode * list frame) :=
  match stack with
  | [] => Some (MDone v, [])
  | FArray items :: st => Some (MAfter, FArray (v :: items) :: st)
  | FMember props k :: st => Some (MAfter, FObject (<[k := v]> props) :: st)
  | FObject _ :: _ => None
  end.

Definition parse_step (st : mode * list frame) (t : token) : option (mode * list frame) :=
  let '(m, stack) := st in
  match m, t with
  | (MValue | MFirst), TValue v => deliver v stack
  | (MValue | MFirst), TLBracket => Some (MFirst, FArray [] :: stack)
  | (MValue | MFirst), TLBrace => Some (MFirstKey, FObject ∅ :: stack)
  | MFirst, TRBracket =>
    match stack with
    | FArray _ :: st' => deliver (VArr [] ∅) st'
    | _ => None
    end
  | (MFirstKey | MKey), TValue (VStr k) =>
    match stack with
    | FObject props :: st' => Some (MColon, FMember props k :: st')
    | _ => None
    end
  | MFirstKey, TRBrace =>
    match stack with
    | FObject props :: st' => deliver (VObj props) st'
    | _ => None
    end
  | MColon, TColon => Some (MValue, stack)
  | MAfter, TComma =>
    match stack with
    | FArray _ :: _ => Some (MValue, stack)
    | FObject _ :: _ => Some (MKey, stack)
    | _ => None
    end
  | MAfter, TRBracket =>
    match stack with
    | FArray items :: st' => deliver (VArr (reverse items) ∅) st'
    | _ => None
    end
  | MAfter, TRBrace =>
    match stack with
    | FObject props :: st' => deliver (VObj props) st'
    | _ => None
    end
  | _, _ => None
  end.

Fixpoint parse_tokens (st : mode * list frame) (ts : list token) : option JSValue :=
  match ts with
  | [] => match st with (MDone v, _) => Some v | _ => None end
  | t :: ts' => st' ← parse_step st t; parse_tokens st' ts'
  end.

(** [JSON.parse text], without a reviver: [None] is a thrown SyntaxError. *)
Definition JSON_parse (text : list N) : option JSValue :=
  ts ← lex 0 text; parse_tokens (MValue, []) ts.

(** ** Exceptions and effects *)

(** What a statement of the function can throw. *)
Inductive Thrown : Type :=
| TypeError
| SyntaxError
| Rejected (reason : list N)   (* thrown by the remote call, or its rejection *)
| Error (message : list N).    (* [new Error(message)] *)

(** The response shape handed to the service ([Type.STRING], [Type.ARRAY],
    [Type.OBJECT]); a description or a list of required names may be left
    out. *)
#[warnings="-register-all"]
Inductive Schema : Type :=
| SString (description : option (list N))
| SArray (items : Schema) (description : option (list N))
| SObject (properties : list (list N * Schema)) (required : option (list (list N))).

(** The argument of [ai.models.generateContent]. *)
Record Request : Type := {
  model : list N;
  contents : list N;
  responseMimeType : list N;
  responseSchema : Schema
}.

(** The remote call either throws (or rejects), or yields a response whose
    [text] is a string or undefined. *)
Inductive RemoteOutcome : Type :=
| Rejects (reason : list N)
| Responds (text : option (list N)).

(** Everything the function does not decide: what the clock shows each time
    it is read, and what the service does with each request. *)
Record World : Type := {
  clock : nat → Z;
  service : nat → list N → Request → RemoteOutcome
}.

Inductive Event : Type :=
| ConsoleError (message : list N) (detail : option Thrown)
| GenerateContent (apiKey : list N) (request : Request).

(** The number of clock readings so far, and what has been observed from the
    outside, oldest first. *)
Record State : Type := {
  clock_reads : nat;
  log : list Event
}.

Definition is_request (e : Event) : bool :=
  match e with GenerateContent _ _ => true | ConsoleError _ _ => false end.

Definition requests (l : list Event) : list Event := List.filter is_request l.

(** A computation reads the world, changes the state, and returns or throws. *)
Definition M (A : Type) : Type := World → State → (Thrown + A) * State.

Definition ret {A} (x : A) : M A := λ _ st, (inr x, st).

Definition throw {A} (e : Thrown) : M A := λ _ st, (inl e, st).

Definition bind {A B} (m : M A) (k : A → M B) : M B := λ w st,
  match m w st with
  | (inr x, st') => k x w st'
  | (inl e, st') => (inl e, st')
  end.

Definition try_catch {A} (body : M A) (handler : Thrown → M A) : M A := λ w st,
  match body w st with
  | (inr x, st') => (inr x, st')
  | (inl e, st') => handler e w st'
  end.

Notation "'let*' x ':=' m 'in' k" := (bind m (λ x, k))
  (at level 10, x name, m at level 100, k at level 200,
   format "'[v' 'let*'  x  ':='  m  'in' '/' k ']'").

(** [Date.now()]. *)
Definition Date_now : M Z := λ w st,
  (inr (clock w (clock_reads st)),
   {| clock_reads := S (clock_reads st); log := log st |}).

(** [console.error(message)] and [console.error(message, error)]. *)
Definition console_error (message : list N) (detail : option Thrown) : M unit := λ _ st,
  (inr tt, {| clock_reads := clock_reads st;
              log := log st ++ [ConsoleError message detail] |}).

(** [await ai.models.generateContent(request)], on the client built with
    [apiKey]. *)
Definition models_generateContent (apiKey : list N) (request : Request)
    : M (option (list N)) := λ w st,
  let st' := {| clock_reads := clock_reads st;
                log := log st ++ [GenerateContent apiKey request] |} in
  match service w (length (requests (log st))) apiKey request with
  | Rejects reason => (inl (Rejected reason), st')
  | Responds text => (inr text, st')
  end.

(** ** Operations on values *)

(** A decimal of magnitude at most 2^-1075 reads as the number zero. *)
Definition reads_as_zero (mantissa : N) (exponent : Z) : bool :=
  (mantissa =? 0)
  || ((exponent <? 0)%Z && (mantissa * 2 ^ 1075 <=? 10 ^ Z.to_N (- exponent))).

(** ToBoolean; [None] is undefined. *)
Definition ToBoolean (v : option JSValue) : bool :=
  match v with
  | None => false
  | Some VNull => false
  | Some (VBool b) => b
  | Some (VNum _ m e) => negb (reads_as_zero m e)
  | Some (VStr s) => negb (bool_decide (s = []))
  | Some (VArr _ _) => true
  | Some (VObj _) => true
  end.

(** [v || []]. *)
Definition or_empty_array (v : option JSValue) : JSValue :=
  match v with
  | Some x => if ToBoolean v then x else VArr [] ∅
  | None => VArr [] ∅
  end.

(** [target.name], for a [name] that is not an array index, not [length] and
    not inherited from a prototype, as the three names read below.  Reading a
    property of null throws; [None] is undefined. *)
Definition Get (target : JSValue) (name : list N) : M (option JSValue) :=
  match target with
  | VNull => throw TypeError
  | VBool _ | VNum _ _ _ | VStr _ => ret None
  | VArr _ own => ret (own !! name)
  | VObj props => ret (props !! name)
  end.

(** [target.name = v] in strict code (a module is strict code): assigning to
    a property of a primitive throws.  The value of [target] afterwards is
    returned. *)
Definition Set_ (target : JSValue) (name : list N) (v : JSValue) : M JSValue :=
  match target with
  | VNull | VBool _ | VNum _ _ _ | VStr _ => throw TypeError
  | VArr items own => ret (VArr items (<[name := v]> own))
  | VObj props => ret (VObj (<[name := v]> props))
  end.

(** The properties named by the indices of a list. *)
Definition index_props (l : list JSValue) : gmap (list N) JSValue :=
  list_to_map (imap (λ i v, (Number_toString (Z.of_nat i), v)) l).

(** The own enumerable properties [{...o}] copies. *)
Definition spread (o : JSValue) : gmap (list N) JSValue :=
  match o with
  | VNull | VBool _ | VNum _ _ _ => ∅
  | VStr s => index_props ((λ c, VStr [c]) <$> s)
  | VArr items own => index_props items ∪ own
  | VObj props => props
  end.

Fixpoint map_from {A B} (f : A → nat → M B) (i : nat) (l : list A) : M (list B) :=
  match l with
  | [] => ret []
  | x :: r =>
    let* y := f x i in
    let* ys := map_from f (S i) r in
    ret (y :: ys)
  end.

(** [v.map(f)]: [Array.prototype.map] when [v] is an array that has no
    property of its own named [map]; nothing else here has a callable [map],
    and the call throws. *)
Definition Array_map (v : JSValue) (f : JSValue → nat → M JSValue) : M JSValue :=
  match v with
  | VArr items own =>
    match own !! utf16 "map" with
    | None => let* ys := map_from f 0 items in ret (VArr ys ∅)
    | Some _ => throw TypeError
    end
  | _ => throw TypeError
  end.

(** ** The service *)

(** What line 11 finds: no [process] at all ([typeof process] is
    ['undefined']); a [process] whose [env] is undefined or null, as a partial
    shim or a page element named [process] gives; or a [process] with an
    [env], whose [API_KEY] is a string or undefined. *)
Inductive Runtime : Type :=
| NoProcess
| ProcessWithoutEnv
| Process (API_KEY : option (list N)).

(** The key that is configured: a non-empty [process.env.API_KEY]. *)
Definition credential (rt : Runtime) : option (list N) :=
  match rt with
  | NoProcess => None
  | ProcessWithoutEnv => None
  | Process None => None
  | Process (Some key) => if bool_decide (key = []) then None else Some key
  end.

(** Line 11, [typeof process === 'undefined' || !process.env.API_KEY]: where
    [process] exists, [process.env.API_KEY] is read, and reading a property
    of an undefined [process.env] throws.  The line stands before the [try]
    block.  Otherwise the test fails exactly when a key is configured. *)
Definition read_API_KEY (rt : Runtime) : M (option (list N)) :=
  match rt with
  | ProcessWithoutEnv => throw TypeError
  | NoProcess | Process _ => ret (credential rt)
  end.

Definition missing_key_log : list N :=
  utf16 "API_KEY is not defined. Please ensure it is set in your deployment environment variables.".

Definition missing_key_message : list N :=
  utf16 "لم يتم العثور على مفتاح الواجهة البرمجية (API Key). يرجى التأكد من إعداده في متغيرات البيئة الخاصة بنشر التطبيق.".

Definition failure_log : list N := utf16 "Error calling Gemini API:".

Definition failure_message : list N :=
  utf16 "Failed to analyze lesson plan with Gemini.".

Definition objectiveSchema : Schema :=
  SObject
    [ (utf16 "level", SString (Some (utf16 "The Bloom's Taxonomy level of the objective.")));
      (utf16 "formulation", SString (Some (utf16 "The exact wording of the behavioral objective.")));
      (utf16 "evaluation", SString (Some (utf16 "The method or question to evaluate if the objective was met."))) ]
    (Some [utf16 "level"; utf16 "formulation"; utf16 "evaluation"]).

Definition responseSchema_ : Schema :=
  SObject
    [ (utf16 "lessonTitle", SString (Some (utf16 "The main title of the lesson.")));
      (utf16 "subject", SString (Some (utf16 "The subject matter (e.g., 'اللغة العربية').")));
      (utf16 "grade", SString (Some (utf16 "The target grade level (e.g., 'الصف الخامس الابتدائي').")));
      (utf16 "teachingMethods",
       SArray (SString None) (Some (utf16 "List of teaching methods and strategies used.")));
      (utf16 "teachingAids",
       SArray (SString None) (Some (utf16 "List of teaching aids or materials mentioned.")));
      (utf16 "lessonIntro", SString (Some (utf16 "A summary of the lesson's introduction or warm-up activity.")));
      (utf16 "introType", SString (Some (utf16 "The type of introduction (e.g., 'سؤال', 'قصة').")));
      (utf16 "cognitiveObjectives",
       SArray objectiveSchema (Some (utf16 "List of cognitive objectives from the lesson plan.")));
      (utf16 "psychomotorObjectives",
       SArray objectiveSchema (Some (utf16 "List of psychomotor (skill-based) objectives.")));
      (utf16 "affectiveObjectives",
       SArray objectiveSchema (Some (utf16 "List of affective (emotional/value-based) objectives.")));
      (utf16 "teacherRole", SString (Some (utf16 "A summary of the teacher's role during the lesson.")));
      (utf16 "studentRole", SString (Some (utf16 "A summary of the student's role during the lesson.")));
      (utf16 "lessonContent", SString (Some (utf16 "A detailed summary of the core content and activities of the lesson.")));
      (utf16 "lessonClosure", SString (Some (utf16 "A summary of the lesson's closing activity.")));
      (utf16 "homework", SString (Some (utf16 "The homework assignment given to students."))) ]
    None.

Definition prompt_before : list N :=
  utf16 "
    You are an expert educational assistant specializing in analyzing and structuring lesson plans for Yemeni teachers.
    Your task is to analyze the following lesson plan text and extract the required information into a structured JSON format.
    You must analyze the provided lesson text and fill in all fields in the JSON schema. If a specific detail (like 'teaching aids' or 'teacher role') is missing from the text, you MUST infer and generate appropriate content based on the lesson's subject, grade level, and topic. For example, for a 5th-grade Arabic lesson about poetry, you might suggest 'whiteboard, markers, poetry anthology' as teaching aids. Do not leave any fields empty; provide logical and relevant suggestions for all of them. Ensure the objectives you generate are well-formed and appropriate for the lesson.

    The lesson plan is:
    ---
    ".

Definition prompt_after : list N :=
  utf16 "
    ---
    Please extract the information according to the provided JSON schema.
    ".

(** The template literal [prompt]. *)
Definition prompt (lessonText : list N) : list N :=
  prompt_before ++ lessonText ++ prompt_after.

Definition request_for (lessonText : list N) : Request :=
  {| model := utf16 "gemini-2.5-flash";
     contents := prompt lessonText;
     responseMimeType := utf16 "application/json";
     responseSchema := responseSchema_ |}.

(** [response.text.trim()]: reading [trim] from undefined throws. *)
Definition response_text_trim (text : option (list N)) : M (list N) :=
  match text with
  | Some s => ret (trim s)
  | None => throw TypeError
  end.

Definition JSON_parse_or_throw (text : list N) : M JSValue :=
  match JSON_parse text with
  | Some v => ret v
  | None => throw SyntaxError
  end.

(** The template literal [`<prefix>${Date.now()}-${i}`], given the clock
    reading. *)
Definition id_template (prefix : list N) (t : Z) (i : nat) : list N :=
  prefix ++ Number_toString t ++ utf16 "-" ++ Number_toString (Z.of_nat i).

(** The object literal [{...o, id: id}]. *)
Definition object_with_id (o : JSValue) (id : list N) : JSValue :=
  VObj (<[utf16 "id" := VStr id]> (spread o)).

(** The callback of lines 75-77, [(o, i) => ({...o, id: `...`})]. *)
Definition with_id (prefix : list N) (o : JSValue) (i : nat) : M JSValue :=
  let* t := Date_now in
  ret (object_with_id o (id_template prefix t i)).

(** One of lines 75-77:
    [parsedResult.name = (parsedResult.name || []).map(...)]. *)
Definition assign_objectives (name prefix : list N) (parsedResult : JSValue) : M JSValue :=
  let* current := Get parsedResult name in
  let* mapped := Array_map (or_empty_array current) (with_id prefix) in
  Set_ parsedResult name mapped.

(** The three property names, as code units. *)
Definition cognitiveObjectives : list N := Eval cbv in utf16 "cognitiveObjectives".
Definition psychomotorObjectives : list N := Eval cbv in utf16 "psychomotorObjectives".
Definition affectiveObjectives : list N := Eval cbv in utf16 "affectiveObjectives".

(** The body of the [try] block. *)
Definition request_and_parse (apiKey lessonText : list N) : M JSValue :=
  let* text := models_generateContent apiKey (request_for lessonText) in
  let* jsonString := response_text_trim text in
  let* parsedResult := JSON_parse_or_throw jsonString in
  let* parsedResult := assign_objectives cognitiveObjectives (utf16 "cog-") parsedResult in
  let* parsedResult := assign_objectives psychomotorObjectives (utf16 "psy-") parsedResult in
  let* parsedResult := assign_objectives affectiveObjectives (utf16 "aff-") parsedResult in
  ret parsedResult.

#[global] Arguments cognitiveObjectives : simpl never.
#[global] Arguments psychomotorObjectives : simpl never.
#[global] Arguments affectiveObjectives : simpl never.

(** The [catch] block. *)
Definition report_failure (error : Thrown) : M JSValue :=
  let* _ := console_error failure_log (Some error) in
  throw (Error failure_message).

(** [analyzeLessonPlanWithGemini(lessonText)]: the settled promise is a
    returned value ([inr]) or a rejection ([inl]).  The client constructor
    only stores the key. *)
Definition analyzeLessonPlanWithGemini (rt : Runtime) (lessonText : list N) : M JSValue :=
  let* API_KEY := read_API_KEY rt in
  match API_KEY with
  | None =>
    let* _ := console_error missing_key_log None in
    throw (Error missing_key_message)
  | Some apiKey =>
    try_catch (request_and_parse apiKey lessonText) report_failure
  end.

(** ** Reading a result *)

(** The own property [name] of an object or array; [None] when there is none. *)
Definition own_property (v : JSValue) (name : list N) : option JSValue :=
  match v with
  | VObj props => props !! name
  | VArr _ own => own !! name
  | _ => None
  end.

Definition items_of (v : JSValue) : list JSValue :=
  match v with
  | VArr items _ => items
  | _ => []
  end.

(** The elements of the objective list [name] of a plan. *)
Definition objectives_of (plan : JSValue) (name : list N) : list JSValue :=
  from_option items_of [] (own_property plan name).

(** The [id] of an objective, when it is a string. *)
Definition id_of (o : JSValue) : option (list N) :=
  match own_property o (utf16 "id") with
  | Some (VStr s) => Some s
  | _ => None
  end.

Definition objective_lists : list (list N * list N) :=
  [ (cognitiveObjectives, utf16 "cog-");
    (psychomotorObjectives, utf16 "psy-");
    (affectiveObjectives, utf16 "aff-") ].

(** All objectives of a plan, list after list. *)
Definition all_objectives (plan : JSValue) : list JSValue :=
  objectives_of plan cognitiveObjectives
  ++ objectives_of plan psychomotorObjectives
  ++ objectives_of plan affectiveObjectives.

(** The ids found in a plan. *)
Definition plan_ids (plan : JSValue) : list (list N) :=
  omap id_of (all_objectives plan).

(** What lines 75-77 make of the elements sent by the service, when the clock
    has been read [c] times before: element [i] is read at reading [c + i]. *)
Definition stamped (prefix : list N) (w : World) (c : nat) (items : list JSValue)
    : list JSValue :=
  imap (λ i o, object_with_id o (id_template prefix (clock w (c + i)) i)) items.

(** The elements the service sent under [name], after [|| []]. *)
Definition sent_objectives (parsed : JSValue) (name : list N) : list JSValue :=
  items_of (or_empty_array (own_property parsed name)).

(** A parsed reply the three assignments go through with: an object or an
    array whose objective properties are each missing, falsy, or an array. *)
Definition mappable (v : JSValue) : bool :=
  match v with
  | VArr _ own => bool_decide (own !! utf16 "map" = None)
  | _ => false
  end.

Definition accepted (parsed : JSValue) : bool :=
  match parsed with
  | VObj _ | VArr _ _ =>
    forallb (λ name, mappable (or_empty_array (own_property parsed name)))
      [cognitiveObjectives; psychomotorObjectives; affectiveObjectives]
  | _ => false
  end.

(** Objects and arrays, as opposed to primitive values. *)
Definition object_like (v : JSValue) : bool :=
  match v with
  | VObj _ | VArr _ _ => true
  | _ => false
  end.

(** The three assignments of lines 75-77, in sequence. *)
Definition three_assignments (parsedResult : JSValue) : M JSValue :=
  let* parsedResult := assign_objectives cognitiveObjectives (utf16 "cog-") parsedResult in
  let* parsedResult := assign_objectives psychomotorObjectives (utf16 "psy-") parsedResult in
  let* parsedResult := assign_objectives affectiveObjectives (utf16 "aff-") parsedResult in
  ret parsedResult.

(** The target after [target.name = v] went through. *)
Definition assigned (target : JSValue) (name : list N) (v : JSValue) : JSValue :=
  match target with
  | VObj props => VObj (<[name := v]> props)
  | VArr items own => VArr items (<[name := v]> own)
  | _ => target
  end.

(** The plan returned for an accepted reply, when the clock has been read [c]
    times before the call. *)
Definition labelled (w : World) (c : nat) (parsed : JSValue) : JSValue :=
  let cog := sent_objectives parsed cognitiveObjectives in
  let psy := sent_objectives parsed psychomotorObjectives in
  let aff := sent_objectives parsed affectiveObjectives in
  let p1 := assigned parsed cognitiveObjectives
              (VArr (stamped (utf16 "cog-") w c cog) ∅) in
  let p2 := assigned p1 psychomotorObjectives
              (VArr (stamped (utf16 "psy-") w (c + length cog) psy) ∅) in
  assigned p2 affectiveObjectives
    (VArr (stamped (utf16 "aff-") w (c + length cog + length psy) aff) ∅).

(** The number of objectives the service sent. *)
Definition sent_count (parsed : JSValue) : nat :=
  length (sent_objectives parsed cognitiveObjectives)
  + length (sent_objectives parsed psychomotorObjectives)
  + length (sent_objectives parsed affectiveObjectives).

(** The ids lines 75-77 give to a list of elements, see [stamped]. *)
Definition stamped_ids (prefix : list N) (w : World) (c : nat) (items : list JSValue)
    : list (list N) :=
  imap (λ i _, id_template prefix (clock w (c + i)) i) items.

(** The state once the request has been issued, and once a failure has been
    reported on the console. *)
Definition after_request (st : State) (key lessonText : list N) : State :=
  {| clock_reads := clock_reads st;
     log := log st ++ [GenerateContent key (request_for lessonText)] |}.

Definition after_failure (st : State) (error : Thrown) : State :=
  {| clock_reads := clock_reads st;
     log := log st ++ [ConsoleError failure_log (Some error)] |}.

(** ** Worlds used in the examples *)

(** A service that answers every request with the same text. *)
Definition replying (now : nat → Z) (text : list N) : World :=
  {| clock := now; service := λ _ _ _, Responds (Some text) |}.

(** A service that fails every request. *)
Definition failing (now : nat → Z) (reason : list N) : World :=
  {| clock := now; service := λ _ _ _, Rejects reason |}.

(** A clock that advances by one millisecond at every reading, and one that
    stands still. *)
Definition ticking (k : nat) : Z := (1700000000000 + Z.of_nat k)%Z.
Definition frozen (k : nat) : Z := 1700000000000%Z.

Definition initial : State := {| clock_reads := 0; log := [] |}.

Definition configured : Runtime := Process (Some (utf16 "secret")).

(** A JSON text written with apostrophes where the text has quotation marks. *)
Definition json_text (s : string) : list N :=
  (λ c, if c =? 39 then 34 else c) <$> utf16 s.

(** Replies used in the examples: one cognitive objective without fields; one
    that comes with an id of the service; no objective list at all; a JSON
    document that is not an object; a text that is not JSON. *)
Definition one_objective : list N := json_text "{'cognitiveObjectives':[{}]}".
Definition objective_with_remote_id : list N :=
  json_text "{'cognitiveObjectives':[{'id':'remote-1','level':'remember'}]}".
Definition one_of_each : list N :=
  json_text "{'cognitiveObjectives':[{},{}],'psychomotorObjectives':[{}],'affectiveObjectives':[{}]}".
Definition no_lists : list N := json_text "{'lessonTitle':'Poetry'}".
Definition null_document : list N := utf16 "null".
Definition not_json : list N := utf16 "oops".

(** ** The rest of the module *)

(** [initialObjective] of line 4, given what [Date.now()] returned when the
    module was loaded. *)
Definition initialObjective (loaded : Z) : JSValue :=
  VObj (<[utf16 "id" := VStr (Number_toString loaded)]>
       (<[utf16 "level" := VStr []]>
       (<[utf16 "formulation" := VStr []]>
       (<[utf16 "evaluation" := VStr []]> ∅)))).

(** The characters a printed integer is made of. *)
Definition sign_or_digit (a : ascii) : Prop :=
  N_of_ascii a = 45 ∨ 48 ≤ N_of_ascii a ≤ 57.

(** What has been written to the console. *)
Definition console_lines (l : list Event) : list Event :=
  List.filter (λ e, negb (is_request e)) l.

(** A service whose responses carry no text. *)
Definition silent (now : nat → Z) : World :=
  {| clock := now; service := λ _ _ _, Responds None |}.

(** More replies for the examples: objective properties that are falsy, one
    that is a number, and elements that are not objects. *)
Definition falsy_lists : list N :=
  json_text "{'cognitiveObjectives':null,'psychomotorObjectives':0,'affectiveObjectives':[{}]}".
Definition list_is_a_number : list N := json_text "{'cognitiveObjectives':1}".
Definition primitive_elements : list N :=
  json_text "{'cognitiveObjectives':[null,7,true]}".

(** * Proofs *)

(** ** The runtime model at work *)

Example literal_is_utf16 : length missing_key_message = 112%nat.
Proof. vm_compute. reflexivity. Qed.

Example toString_of_a_clock_reading :
  Number_toString 1700000000000 = utf16 "1700000000000".
Proof. vm_compute. reflexivity. Qed.

Example toString_below_zero : Number_toString (-12) = utf16 "-12".
Proof. vm_compute. reflexivity. Qed.

Example trim_strips_both_ends :
  trim ([32; 10; 160] ++ utf16 "a b" ++ [13; 9; 65279]) = utf16 "a b".
Proof. vm_compute. reflexivity. Qed.

Example parse_scalars :
  JSON_parse (json_text " [null, true, false, -0, 2.50e-3, 'a\u0041\n'] ")
  = Some (VArr [VNull; VBool true; VBool false; VNum true 0 0; VNum false 250 (-5);
                VStr [97; 65; 10]] ∅).
Proof. vm_compute. reflexivity. Qed.

Example parse_nested :
  JSON_parse (json_text "{'a': {'b': []}, 'c': [[1]]}")
  = Some (VObj (<[utf16 "a" := VObj (<[utf16 "b" := VArr [] ∅]> ∅)]>
               (<[utf16 "c" := VArr [VArr [VNum false 1 0] ∅] ∅]> ∅))).
Proof. vm_compute. reflexivity. Qed.

Example parse_keeps_last_duplicate :
  JSON_parse (json_text "{'a': 1, 'a': 2}")
  = Some (VObj (<[utf16 "a" := VNum false 2 0]> ∅)).
Proof. vm_compute. reflexivity. Qed.

Example parse_rejects :
  Forall (λ text, JSON_parse (json_text text) = None)
    [ "oops"; "[1,]"; "{'a':1,}"; "{'a' 1}"; "[1 2]"; "01"; "1."; ".5"; "+1"; "-";
      "nul"; "nulltrue"; "'abc"; "[[]"; "{}}"; "{a: 1}" ]%string
  ∧ JSON_parse [] = None.
Proof. split; [repeat constructor|reflexivity]. Qed.

Example falsy_values :
  ToBoolean <$> [None; Some VNull; Some (VBool false); Some (VNum true 0 0);
                 Some (VNum false 1 (-400)); Some (VStr [])]
  = [false; false; false; false; false; false]
  ∧ ToBoolean <$> [Some (VBool true); Some (VNum false 5 (-324)); Some (VStr [48]);
                   Some (VArr [] ∅); Some (VObj ∅)]
    = [true; true; true; true; true].
Proof. split; vm_compute; reflexivity. Qed.

Example spread_of_a_string :
  spread (VStr (utf16 "hi"))
  = <[utf16 "0" := VStr (utf16 "h")]> (<[utf16 "1" := VStr (utf16 "i")]> ∅).
Proof. vm_compute. reflexivity. Qed.

(** A reply that is not an object with arrays under the three names: the
    function fails on [5], on an objective property that is a number or an
    object, and returns for an array or for falsy properties. *)
Example replies_refused_and_accepted :
  (λ text, accepted <$> JSON_parse (json_text text))
    <$> [ "5"; "null"; "'text'"; "{'cognitiveObjectives': 1}";
          "{'affectiveObjectives': {'0': {}}}"; "[]"; "{}";
          "{'cognitiveObjectives': 0, 'psychomotorObjectives': null}" ]%string
  = [Some false; Some false; Some false; Some false; Some false;
     Some true; Some true; Some true].
Proof. vm_compute. reflexivity. Qed.

(** ** Strings *)

Section strings.

#[local] Instance N_of_ascii_inj : Inj (=) (=) N_of_ascii.
Proof.
  intros a b H. rewrite <- (ascii_N_embedding a), <- (ascii_N_embedding b).
  by rewrite H.
Qed.

Lemma ascii_units_inj : Inj (=) (=) ascii_units.
Proof.
  intros s1 s2 H. unfold ascii_units in H.
  apply (inj (fmap N_of_ascii)) in H.
  rewrite <- (string_of_list_ascii_of_string s1),
          <- (string_of_list_ascii_of_string s2).
  by rewrite H.
Qed.

Lemma Number_toString_inj : Inj (=) (=) Number_toString.
Proof.
  intros x y H. unfold Number_toString in H.
  apply ascii_units_inj in H. by apply (inj pretty) in H.
Qed.

Lemma digit_is_not_minus d : pretty_N_char d ≠ "-"%char.
Proof. unfold pretty_N_char. by repeat case_match. Qed.

Lemma pretty_N_go_no_minus x s :
  "-"%char ∉ list_ascii_of_string s →
  "-"%char ∉ list_ascii_of_string (pretty_N_go x s).
Proof.
  revert s. induction (N.lt_wf_0 x) as [x _ IH]; intros s Hs.
  destruct (decide (x = 0)) as [->|Hx]; [by rewrite pretty_N_go_0|].
  rewrite pretty_N_go_step by lia.
  apply IH; [apply N.div_lt; lia|].
  simpl. rewrite elem_of_cons. intros [E|E]; [|done].
  by eapply digit_is_not_minus.
Qed.

Lemma pretty_nat_no_minus (i : nat) :
  "-"%char ∉ list_ascii_of_string (pretty (Z.of_nat i)).
Proof.
  destruct (Z.of_nat i) as [|p|p] eqn:E; [| |lia].
  - simpl. intros [H|H]%elem_of_cons; [discriminate H|by apply elem_of_nil in H].
  - unfold pretty, pretty_Z, pretty, pretty_positive, pretty, pretty_N.
    case_decide; [done|]. apply pretty_N_go_no_minus. simpl. apply not_elem_of_nil.
Qed.

(** The digits of an index contain no minus sign. *)
Lemma index_has_no_minus (i : nat) : 45 ∉ Number_toString (Z.of_nat i).
Proof.
  unfold Number_toString, ascii_units. rewrite list_elem_of_fmap.
  intros (a & Ha & Hin).
  assert (a = "-"%char) as -> by (apply (inj N_of_ascii); by rewrite <- Ha).
  by apply pretty_nat_no_minus in Hin.
Qed.

Lemma first_occurrence_inj {A} (x : A) (l1 k1 l2 k2 : list A) :
  x ∉ l1 → x ∉ k1 → l1 ++ x :: l2 = k1 ++ x :: k2 → l1 = k1 ∧ l2 = k2.
Proof.
  revert k1. induction l1 as [|a l1 IH]; intros [|b k1] Hl Hk E.
  - by injection E as ->.
  - injection E as -> _. exfalso. apply Hk. left.
  - injection E as -> _. exfalso. apply Hl. left.
  - injection E as -> E. apply not_elem_of_cons in Hl as [_ Hl], Hk as [_ Hk].
    by destruct (IH k1 Hl Hk E) as [-> ->].
Qed.

Lemma last_occurrence_inj {A} (x : A) (l1 k1 l2 k2 : list A) :
  x ∉ l2 → x ∉ k2 → l1 ++ x :: l2 = k1 ++ x :: k2 → l1 = k1 ∧ l2 = k2.
Proof.
  intros Hl Hk E. apply (f_equal reverse) in E.
  rewrite !reverse_app, !reverse_cons, <- !(assoc_L (++)) in E. simpl in E.
  apply first_occurrence_inj in E as [E1 E2]; [|by rewrite elem_of_reverse..].
  split; by apply (inj reverse).
Qed.

(** The template is injective in the clock reading and the index. *)
Lemma id_template_inj p p' t t' i i' :
  length p = length p' →
  id_template p t i = id_template p' t' i' → p = p' ∧ t = t' ∧ i = i'.
Proof.
  intros Hlen E. unfold id_template in E.
  apply app_inj_1 in E as [-> E]; [|done].
  change (utf16 "-") with [45] in E. simpl in E.
  apply last_occurrence_inj in E as [Et Ei]; [|apply index_has_no_minus..].
  apply Number_toString_inj in Et, Ei. split_and!; [done|done|lia].
Qed.

Lemma id_template_nonempty p t i : id_template p t i ≠ [].
Proof.
  unfold id_template. change (utf16 "-") with [45].
  intros E. apply app_eq_nil in E as [_ E]. apply app_eq_nil in E as [_ E]. done.
Qed.

Lemma trim_start_white ws s :
  Forall (λ c, is_white_space c = true) ws → trim_start (ws ++ s) = trim_start s.
Proof. induction 1 as [|c ws Hc _ IH]; [done|]. simpl. by rewrite Hc. Qed.

Lemma trim_start_app_white s ws :
  Forall (λ c, is_white_space c = true) ws →
  trim_start (s ++ ws) = trim_start s ++ ws
  ∨ (trim_start s = [] ∧ trim_start (s ++ ws) = []).
Proof.
  intros Hws. induction s as [|c s IH]; simpl.
  - right. split; [done|]. rewrite <- (app_nil_r ws) at 1.
    by rewrite trim_start_white.
  - destruct (is_white_space c); [done|by left].
Qed.

Lemma trim_end_white s ws :
  Forall (λ c, is_white_space c = true) ws → trim_end (s ++ ws) = trim_end s.
Proof.
  intros Hws. unfold trim_end. rewrite reverse_app, trim_start_white; [done|].
  by apply Forall_reverse.
Qed.

(** White space around a text does not survive [trim]. *)
Lemma trim_surrounded ws1 doc ws2 :
  Forall (λ c, is_white_space c = true) ws1 →
  Forall (λ c, is_white_space c = true) ws2 →
  trim (ws1 ++ doc ++ ws2) = trim doc.
Proof.
  intros H1 H2. unfold trim. rewrite trim_start_white by done.
  destruct (trim_start_app_white doc ws2 H2) as [->|[-> ->]]; [|done].
  by apply trim_end_white.
Qed.

End strings.

#[local] Close Scope N_scope.

(** ** The three assignments *)

Lemma names_distinct :
  cognitiveObjectives ≠ psychomotorObjectives
  ∧ cognitiveObjectives ≠ affectiveObjectives
  ∧ psychomotorObjectives ≠ affectiveObjectives.
Proof. split_and!; intros E; vm_compute in E; discriminate. Qed.

Lemma names_apart :
  cognitiveObjectives ≠ psychomotorObjectives
  ∧ cognitiveObjectives ≠ affectiveObjectives
  ∧ psychomotorObjectives ≠ affectiveObjectives
  ∧ psychomotorObjectives ≠ cognitiveObjectives
  ∧ affectiveObjectives ≠ cognitiveObjectives
  ∧ affectiveObjectives ≠ psychomotorObjectives.
Proof.
  destruct names_distinct as (Hcp & Hca & Hpa).
  exact (conj Hcp (conj Hca (conj Hpa
           (conj (not_eq_sym Hcp) (conj (not_eq_sym Hca) (not_eq_sym Hpa)))))).
Qed.

Lemma cognitive_listed : (cognitiveObjectives, utf16 "cog-") ∈ objective_lists.
Proof. left. Qed.

Lemma psychomotor_listed : (psychomotorObjectives, utf16 "psy-") ∈ objective_lists.
Proof. right; left. Qed.

Lemma affective_listed : (affectiveObjectives, utf16 "aff-") ∈ objective_lists.
Proof. right; right; left. Qed.

Lemma prefixes_distinct :
  utf16 "cog-" ≠ utf16 "psy-" ∧ utf16 "cog-" ≠ utf16 "aff-"
  ∧ utf16 "psy-" ≠ utf16 "aff-".
Proof. split_and!; intros E; vm_compute in E; discriminate. Qed.

Lemma objective_prefix_length name prefix :
  (name, prefix) ∈ objective_lists → length prefix = 4.
Proof.
  unfold objective_lists. rewrite !elem_of_cons, elem_of_nil.
  intros [[= _ ->]|[[= _ ->]|[[= _ ->]|[]]]]; done.
Qed.


Lemma map_from_with_id prefix items i w st :
  map_from (with_id prefix) i items w st =
  (inr (imap (λ k o, object_with_id o
                       (id_template prefix (clock w (clock_reads st + k)) (i + k)))
             items),
   {| clock_reads := clock_reads st + length items; log := log st |}).
Proof.
  revert i st. induction items as [|o items IH]; intros i st.
  - destruct st. simpl. unfold ret. by rewrite Nat.add_0_r.
  - simpl. unfold bind at 1, with_id at 1, bind at 1, Date_now, ret at 1.
    unfold bind at 1. rewrite IH. unfold ret. simpl.
    rewrite !Nat.add_0_r. f_equal; [f_equal; f_equal|f_equal; lia].
    apply imap_ext. intros k x _. simpl. do 3 f_equal; lia.
Qed.

Lemma own_property_assigned_eq target name v :
  (∃ props, target = VObj props) ∨ (∃ items own, target = VArr items own) →
  own_property (assigned target name v) name = Some v.
Proof. intros [[? ->]|(? & ? & ->)]; simpl; apply lookup_insert_eq. Qed.

Lemma own_property_assigned_ne target name v name' :
  name ≠ name' →
  own_property (assigned target name v) name' = own_property target name'.
Proof. intros Hne. destruct target; simpl; try done; by apply lookup_insert_ne. Qed.


Lemma assign_objectives_run name prefix target w st :
  assign_objectives name prefix target w st =
  if object_like target && mappable (or_empty_array (own_property target name))
  then (inr (assigned target name
               (VArr (stamped prefix w (clock_reads st) (sent_objectives target name)) ∅)),
        {| clock_reads := clock_reads st + length (sent_objectives target name);
           log := log st |})
  else (inl TypeError, st).
Proof.
  unfold assign_objectives, sent_objectives.
  destruct target as [|b|s m e|s|items own|props]; simpl; try done.
  - unfold bind at 1. unfold Get, ret at 1.
    destruct (or_empty_array (own !! name)) as [| | | |its o|] eqn:E; simpl; try done.
    case_bool_decide as Hm.
    + rewrite Hm. unfold bind. rewrite map_from_with_id. done.
    + destruct (o !! utf16 "map"); [done|congruence].
  - unfold bind at 1. unfold Get, ret at 1.
    destruct (or_empty_array (props !! name)) as [| | | |its o|] eqn:E; simpl; try done.
    case_bool_decide as Hm.
    + rewrite Hm. unfold bind. rewrite map_from_with_id. done.
    + destruct (o !! utf16 "map"); [done|congruence].
Qed.

Lemma object_like_assigned target name v :
  object_like (assigned target name v) = object_like target.
Proof. by destruct target. Qed.

Lemma sent_objectives_assigned target name v name' :
  name ≠ name' →
  sent_objectives (assigned target name v) name' = sent_objectives target name'.
Proof. intros. unfold sent_objectives. by rewrite own_property_assigned_ne. Qed.


Lemma accepted_unfold parsed :
  accepted parsed =
  object_like parsed
  && mappable (or_empty_array (own_property parsed cognitiveObjectives))
  && mappable (or_empty_array (own_property parsed psychomotorObjectives))
  && mappable (or_empty_array (own_property parsed affectiveObjectives)).
Proof. destruct parsed; simpl; try done; by rewrite andb_true_r, andb_assoc. Qed.

(** An accepted reply goes through the three assignments; the clock is read
    once for each objective. *)
Lemma three_assignments_accepted parsed w st :
  accepted parsed = true →
  three_assignments parsed w st =
  (inr (labelled w (clock_reads st) parsed),
   {| clock_reads := clock_reads st + sent_count parsed; log := log st |}).
Proof.
  destruct names_apart as (Hcp & Hca & Hpa & Hpc & Hac & Hap).
  rewrite accepted_unfold, !andb_true_iff. intros [[[Hobj H1] H2] H3].
  unfold three_assignments, bind, labelled, sent_count.
  rewrite assign_objectives_run, Hobj, H1. cbn [andb].
  rewrite assign_objectives_run, object_like_assigned, Hobj.
  unfold sent_objectives.
  rewrite !(own_property_assigned_ne _ _ _ _ Hcp), H2. cbn [andb].
  rewrite assign_objectives_run, !object_like_assigned, Hobj.
  unfold sent_objectives.
  rewrite !(own_property_assigned_ne _ _ _ _ Hpa),
    !(own_property_assigned_ne _ _ _ _ Hca), H3. cbn [andb].
  unfold ret. cbn [clock_reads log]. do 2 f_equal. lia.
Qed.

(** Any other reply makes one of them throw a TypeError; nothing is logged. *)
Lemma three_assignments_refused parsed w st :
  accepted parsed = false →
  ∃ n, three_assignments parsed w st =
       (inl TypeError, {| clock_reads := n; log := log st |}).
Proof.
  destruct names_apart as (Hcp & Hca & Hpa & Hpc & Hac & Hap).
  rewrite accepted_unfold. intros Hacc.
  unfold three_assignments, bind.
  rewrite assign_objectives_run.
  destruct (object_like parsed) eqn:Hobj; cbn [andb];
    [|destruct st; by eexists].
  destruct (mappable (or_empty_array (own_property parsed cognitiveObjectives)));
    cbn [andb]; [|destruct st; by eexists].
  rewrite assign_objectives_run, object_like_assigned, Hobj.
  rewrite (own_property_assigned_ne _ _ _ _ Hcp). cbn [andb log].
  destruct (mappable (or_empty_array (own_property parsed psychomotorObjectives)));
    cbn [andb]; [|by eexists].
  rewrite assign_objectives_run, !object_like_assigned, Hobj.
  rewrite (own_property_assigned_ne _ _ _ _ Hpa),
    (own_property_assigned_ne _ _ _ _ Hca). cbn [andb log].
  destruct (mappable (or_empty_array (own_property parsed affectiveObjectives)));
    cbn [andb]; [|by eexists].
  discriminate Hacc.
Qed.

(** ** Runs of the function *)

(** With a [process] that has no [env], line 11 throws, and nothing else
    happens. *)
Lemma analyze_without_env lessonText w st :
  analyzeLessonPlanWithGemini ProcessWithoutEnv lessonText w st = (inl TypeError, st).
Proof. reflexivity. Qed.

Lemma with_env_or_without rt : rt = ProcessWithoutEnv ∨ rt ≠ ProcessWithoutEnv.
Proof. destruct rt; [by right|by left|by right]. Qed.

Lemma analyze_unconfigured rt lessonText w st :
  rt ≠ ProcessWithoutEnv →
  credential rt = None →
  analyzeLessonPlanWithGemini rt lessonText w st =
  (inl (Error missing_key_message),
   {| clock_reads := clock_reads st;
      log := log st ++ [ConsoleError missing_key_log None] |}).
Proof.
  intros Henv H. unfold analyzeLessonPlanWithGemini, bind.
  destruct rt as [| |API_KEY]; [|done|]; unfold read_API_KEY, ret; by rewrite H.
Qed.

Lemma credential_Some rt key :
  credential rt = Some key → rt = Process (Some key) ∧ key ≠ [].
Proof.
  destruct rt as [| |[k|]]; simpl; try done.
  case_bool_decide; [done|]. by intros [= ->].
Qed.

Lemma request_and_parse_run key lessonText w st :
  request_and_parse key lessonText w st =
  match service w (length (requests (log st))) key (request_for lessonText) with
  | Rejects reason => (inl (Rejected reason), after_request st key lessonText)
  | Responds None => (inl TypeError, after_request st key lessonText)
  | Responds (Some text) =>
    match JSON_parse (trim text) with
    | None => (inl SyntaxError, after_request st key lessonText)
    | Some parsed => three_assignments parsed w (after_request st key lessonText)
    end
  end.
Proof.
  unfold request_and_parse. unfold bind at 1. unfold models_generateContent.
  destruct (service w _ key _) as [reason|[text|]]; [done| |done].
  unfold bind at 1. unfold response_text_trim, ret at 1.
  unfold bind at 1. unfold JSON_parse_or_throw.
  by destruct (JSON_parse (trim text)).
Qed.

Lemma analyze_configured rt key lessonText w st :
  credential rt = Some key →
  analyzeLessonPlanWithGemini rt lessonText w st =
  match request_and_parse key lessonText w st with
  | (inr plan, st') => (inr plan, st')
  | (inl error, st') => (inl (Error failure_message), after_failure st' error)
  end.
Proof.
  intros H. destruct (credential_Some rt key H) as [-> _].
  unfold analyzeLessonPlanWithGemini, bind, read_API_KEY, ret. rewrite H.
  unfold try_catch. by destruct (request_and_parse key lessonText w st) as [[e|p] st'].
Qed.

(** The function returns exactly when a key is configured, the service
    answers with a text, the trimmed text is JSON, and the value is accepted
    by the three assignments. *)
Lemma analyze_returns rt lessonText w st plan st' :
  analyzeLessonPlanWithGemini rt lessonText w st = (inr plan, st') →
  ∃ key text parsed,
    credential rt = Some key
    ∧ service w (length (requests (log st))) key (request_for lessonText)
      = Responds (Some text)
    ∧ JSON_parse (trim text) = Some parsed
    ∧ accepted parsed = true
    ∧ plan = labelled w (clock_reads st) parsed
    ∧ st' = {| clock_reads := clock_reads st + sent_count parsed;
               log := log st ++ [GenerateContent key (request_for lessonText)] |}.
Proof.
  destruct (with_env_or_without rt) as [->|Henv];
    [by rewrite analyze_without_env|].
  destruct (credential rt) as [key|] eqn:Hkey;
    [|by rewrite analyze_unconfigured].
  rewrite (analyze_configured _ key) by done. rewrite request_and_parse_run.
  destruct (service w _ key _) as [reason|[text|]] eqn:Hs; [done| |done].
  destruct (JSON_parse (trim text)) as [parsed|] eqn:Hp; [|done].
  destruct (accepted parsed) eqn:Hacc.
  - rewrite three_assignments_accepted by done. intros [= <- <-].
    by exists key, text, parsed.
  - destruct (three_assignments_refused parsed w (after_request st key lessonText) Hacc)
      as [n ->]. done.
Qed.

Lemma analyze_accepts rt lessonText w st key text parsed :
  credential rt = Some key →
  service w (length (requests (log st))) key (request_for lessonText)
    = Responds (Some text) →
  JSON_parse (trim text) = Some parsed →
  accepted parsed = true →
  analyzeLessonPlanWithGemini rt lessonText w st =
  (inr (labelled w (clock_reads st) parsed),
   {| clock_reads := clock_reads st + sent_count parsed;
      log := log st ++ [GenerateContent key (request_for lessonText)] |}).
Proof.
  intros Hkey Hs Hp Hacc.
  rewrite (analyze_configured _ key), request_and_parse_run, Hs, Hp by done.
  by rewrite three_assignments_accepted.
Qed.

Lemma analyze_refuses rt lessonText w st key text parsed :
  credential rt = Some key →
  service w (length (requests (log st))) key (request_for lessonText)
    = Responds (Some text) →
  JSON_parse (trim text) = Some parsed →
  accepted parsed = false →
  ∃ n, analyzeLessonPlanWithGemini rt lessonText w st =
       (inl (Error failure_message),
        {| clock_reads := n;
           log := log st ++ [GenerateContent key (request_for lessonText);
                             ConsoleError failure_log (Some TypeError)] |}).
Proof.
  intros Hkey Hs Hp Hacc.
  rewrite (analyze_configured _ key), request_and_parse_run, Hs, Hp by done.
  destruct (three_assignments_refused parsed w (after_request st key lessonText) Hacc)
    as [n ->].
  exists n. unfold after_failure, after_request. simpl. by rewrite <- (assoc_L (++)).
Qed.

(** ** The returned plan *)

Lemma accepted_object_like parsed :
  accepted parsed = true →
  (∃ props, parsed = VObj props) ∨ (∃ items own, parsed = VArr items own).
Proof. destruct parsed; simpl; try done; eauto. Qed.

Lemma assigned_object_like target name v :
  (∃ props, target = VObj props) ∨ (∃ items own, target = VArr items own) →
  (∃ props, assigned target name v = VObj props)
  ∨ (∃ items own, assigned target name v = VArr items own).
Proof. intros [[? ->]|(? & ? & ->)]; simpl; eauto. Qed.

Lemma labelled_objectives w c parsed :
  accepted parsed = true →
  objectives_of (labelled w c parsed) cognitiveObjectives
  = stamped (utf16 "cog-") w c (sent_objectives parsed cognitiveObjectives)
  ∧ objectives_of (labelled w c parsed) psychomotorObjectives
    = stamped (utf16 "psy-") w
        (c + length (sent_objectives parsed cognitiveObjectives))
        (sent_objectives parsed psychomotorObjectives)
  ∧ objectives_of (labelled w c parsed) affectiveObjectives
    = stamped (utf16 "aff-") w
        (c + length (sent_objectives parsed cognitiveObjectives)
           + length (sent_objectives parsed psychomotorObjectives))
        (sent_objectives parsed affectiveObjectives).
Proof.
  intros Hobj%accepted_object_like.
  destruct names_apart as (Hcp & Hca & Hpa & Hpc & Hac & Hap).
  unfold objectives_of, labelled. split_and!.
  - rewrite (own_property_assigned_ne _ _ _ _ Hac),
      (own_property_assigned_ne _ _ _ _ Hpc),
      (own_property_assigned_eq _ _ _ Hobj). done.
  - rewrite (own_property_assigned_ne _ _ _ _ Hap), own_property_assigned_eq;
      [done|by apply assigned_object_like].
  - rewrite own_property_assigned_eq; [done|].
    by do 2 apply assigned_object_like.
Qed.

(** Each of the three properties of a returned plan is an array. *)
Lemma labelled_property w c parsed name :
  accepted parsed = true →
  name ∈ [cognitiveObjectives; psychomotorObjectives; affectiveObjectives] →
  own_property (labelled w c parsed) name
  = Some (VArr (objectives_of (labelled w c parsed) name) ∅).
Proof.
  intros Hobj%accepted_object_like Hin.
  destruct names_apart as (Hcp & Hca & Hpa & Hpc & Hac & Hap).
  unfold objectives_of, labelled.
  rewrite !elem_of_cons, elem_of_nil in Hin. destruct Hin as [->|[->|[->|[]]]].
  - rewrite (own_property_assigned_ne _ _ _ _ Hac),
      (own_property_assigned_ne _ _ _ _ Hpc),
      (own_property_assigned_eq _ _ _ Hobj). done.
  - rewrite (own_property_assigned_ne _ _ _ _ Hap), own_property_assigned_eq;
      [done|by apply assigned_object_like].
  - rewrite own_property_assigned_eq; [done|].
    by do 2 apply assigned_object_like.
Qed.

Lemma id_of_object_with_id o id : id_of (object_with_id o id) = Some id.
Proof. unfold id_of, object_with_id. simpl. by rewrite lookup_insert_eq. Qed.

Lemma stamped_lookup prefix w c items i o' :
  stamped prefix w c items !! i = Some o' ↔
  ∃ o, items !! i = Some o
       ∧ o' = object_with_id o (id_template prefix (clock w (c + i)) i).
Proof.
  unfold stamped. rewrite list_lookup_imap.
  destruct (items !! i) as [o|]; simpl; split.
  - intros [= <-]. by exists o.
  - by intros (? & [= <-] & ->).
  - done.
  - by intros (? & ? & _).
Qed.

Lemma length_stamped prefix w c items :
  length (stamped prefix w c items) = length items.
Proof. apply length_imap. Qed.

(** ** Identifiers of a returned plan *)

Lemma stamped_ids_spec prefix w c items :
  id_of <$> stamped prefix w c items = Some <$> stamped_ids prefix w c items.
Proof.
  unfold stamped, stamped_ids. rewrite !fmap_imap. apply imap_ext.
  intros i o _. simpl. apply id_of_object_with_id.
Qed.

Lemma omap_Some_fmap {A B} (f : A → option B) (l : list A) (k : list B) :
  f <$> l = Some <$> k → omap f l = k.
Proof.
  revert k. induction l as [|x l IH]; intros [|y k] E; simplify_eq/=; [done|].
  rewrite H. f_equal. by apply IH.
Qed.

Lemma stamped_ids_lookup prefix w c items i id :
  stamped_ids prefix w c items !! i = Some id ↔
  i < length items ∧ id = id_template prefix (clock w (c + i)) i.
Proof.
  unfold stamped_ids. rewrite list_lookup_imap. split.
  - destruct (items !! i) as [o|] eqn:E; [|done]. intros [= <-].
    split; [by eapply lookup_lt_Some|done].
  - intros [Hlt ->]. apply lookup_lt_is_Some in Hlt as [o ->]. done.
Qed.

Lemma stamped_ids_NoDup prefix w c items : NoDup (stamped_ids prefix w c items).
Proof.
  apply NoDup_alt. intros i j id [_ ->]%stamped_ids_lookup [_ E]%stamped_ids_lookup.
  by apply id_template_inj in E as (_ & _ & ->).
Qed.

Lemma stamped_ids_disjoint p1 p2 w c1 c2 l1 l2 id :
  length p1 = length p2 → p1 ≠ p2 →
  id ∈ stamped_ids p1 w c1 l1 → id ∉ stamped_ids p2 w c2 l2.
Proof.
  intros Hlen Hne [i [_ ->]%stamped_ids_lookup]%list_elem_of_lookup
    [j [_ E]%stamped_ids_lookup]%list_elem_of_lookup.
  by apply id_template_inj in E as (? & _ & _).
Qed.

(** The objectives and the ids of the plan returned for an accepted reply. *)
Lemma all_objectives_labelled w c parsed :
  accepted parsed = true →
  all_objectives (labelled w c parsed)
  = stamped (utf16 "cog-") w c (sent_objectives parsed cognitiveObjectives)
    ++ stamped (utf16 "psy-") w
         (c + length (sent_objectives parsed cognitiveObjectives))
         (sent_objectives parsed psychomotorObjectives)
    ++ stamped (utf16 "aff-") w
         (c + length (sent_objectives parsed cognitiveObjectives)
            + length (sent_objectives parsed psychomotorObjectives))
         (sent_objectives parsed affectiveObjectives).
Proof.
  intros Hacc. unfold all_objectives.
  destruct (labelled_objectives w c parsed Hacc) as (-> & -> & ->). done.
Qed.

Lemma ids_labelled w c parsed :
  accepted parsed = true →
  id_of <$> all_objectives (labelled w c parsed)
  = Some <$> (stamped_ids (utf16 "cog-") w c (sent_objectives parsed cognitiveObjectives)
    ++ stamped_ids (utf16 "psy-") w
         (c + length (sent_objectives parsed cognitiveObjectives))
         (sent_objectives parsed psychomotorObjectives)
    ++ stamped_ids (utf16 "aff-") w
         (c + length (sent_objectives parsed cognitiveObjectives)
            + length (sent_objectives parsed psychomotorObjectives))
         (sent_objectives parsed affectiveObjectives)).
Proof.
  intros Hacc. rewrite all_objectives_labelled by done.
  by rewrite !fmap_app, !stamped_ids_spec.
Qed.

Lemma plan_ids_labelled w c parsed :
  accepted parsed = true →
  plan_ids (labelled w c parsed)
  = stamped_ids (utf16 "cog-") w c (sent_objectives parsed cognitiveObjectives)
    ++ stamped_ids (utf16 "psy-") w
         (c + length (sent_objectives parsed cognitiveObjectives))
         (sent_objectives parsed psychomotorObjectives)
    ++ stamped_ids (utf16 "aff-") w
         (c + length (sent_objectives parsed cognitiveObjectives)
            + length (sent_objectives parsed psychomotorObjectives))
         (sent_objectives parsed affectiveObjectives).
Proof. intros Hacc. by apply omap_Some_fmap, ids_labelled. Qed.

Lemma plan_ids_NoDup w c parsed :
  accepted parsed = true → NoDup (plan_ids (labelled w c parsed)).
Proof.
  intros Hacc. rewrite plan_ids_labelled by done.
  destruct prefixes_distinct as (Hcp & Hca & Hpa).
  rewrite !NoDup_app. split_and!; try apply stamped_ids_NoDup.
  - intros id Hid. rewrite elem_of_app. intros [H|H].
    + eapply (stamped_ids_disjoint (utf16 "cog-") (utf16 "psy-"));
        [reflexivity|done|exact Hid|exact H].
    + eapply (stamped_ids_disjoint (utf16 "cog-") (utf16 "aff-"));
        [reflexivity|done|exact Hid|exact H].
  - intros id Hid H.
    eapply (stamped_ids_disjoint (utf16 "psy-") (utf16 "aff-"));
      [reflexivity|done|exact Hid|exact H].
Qed.

(** Every id of a returned plan is the template applied to one of the three
    prefixes, to a clock reading made during the call and to an index. *)
Lemma plan_id_origin w c parsed id :
  accepted parsed = true →
  id ∈ plan_ids (labelled w c parsed) →
  ∃ name prefix k i,
    (name, prefix) ∈ objective_lists
    ∧ (c ≤ k < c + sent_count parsed)%nat
    ∧ id = id_template prefix (clock w k) i.
Proof.
  intros Hacc. rewrite plan_ids_labelled by done. unfold sent_count.
  rewrite !elem_of_app.
  intros [H|[H|H]]; apply list_elem_of_lookup in H as [i [Hi ->]%stamped_ids_lookup].
  - exists cognitiveObjectives, (utf16 "cog-"), (c + i)%nat, i.
    split_and!; [apply cognitive_listed|lia|lia|done].
  - exists psychomotorObjectives, (utf16 "psy-"),
      (c + length (sent_objectives parsed cognitiveObjectives) + i)%nat, i.
    split_and!; [apply psychomotor_listed|lia|lia|done].
  - exists affectiveObjectives, (utf16 "aff-"),
      (c + length (sent_objectives parsed cognitiveObjectives)
         + length (sent_objectives parsed psychomotorObjectives) + i)%nat, i.
    split_and!; [apply affective_listed|lia|lia|done].
Qed.

(** The objective at index [i] of a list of a returned plan: the element the
    service sent at that index, with the id made from the prefix of the list,
    a clock reading of this call, and [i]. *)
Lemma labelled_objective w c parsed name prefix i o' :
  accepted parsed = true →
  (name, prefix) ∈ objective_lists →
  objectives_of (labelled w c parsed) name !! i = Some o' →
  ∃ o k, sent_objectives parsed name !! i = Some o
         ∧ (c ≤ k < c + sent_count parsed)%nat
         ∧ o' = object_with_id o (id_template prefix (clock w k) i).
Proof.
  intros Hacc Hin.
  destruct (labelled_objectives w c parsed Hacc) as (Hc & Hp & Ha).
  unfold objective_lists in Hin. rewrite !elem_of_cons, elem_of_nil in Hin.
  unfold sent_count.
  destruct Hin as [[= -> ->]|[[= -> ->]|[[= -> ->]|[]]]].
  - rewrite Hc. intros (o & Ho & ->)%stamped_lookup.
    exists o, (c + i)%nat. apply lookup_lt_Some in Ho as Hlt. split_and!; [done|lia|lia|done].
  - rewrite Hp. intros (o & Ho & ->)%stamped_lookup.
    eexists o, _. apply lookup_lt_Some in Ho as Hlt. split_and!; [done| | |done]; lia.
  - rewrite Ha. intros (o & Ho & ->)%stamped_lookup.
    eexists o, _. apply lookup_lt_Some in Ho as Hlt. split_and!; [done| | |done]; lia.
Qed.

(** ** What is observed from the outside *)

Lemma requests_console l message detail :
  requests (l ++ [ConsoleError message detail]) = requests l.
Proof. unfold requests. rewrite List.filter_app. simpl. by rewrite app_nil_r. Qed.

Lemma requests_request l key request :
  requests (l ++ [GenerateContent key request])
  = requests l ++ [GenerateContent key request].
Proof. unfold requests. by rewrite List.filter_app. Qed.

(** With a key configured, every run issues exactly one request. *)
Lemma analyze_requests rt key lessonText w st :
  credential rt = Some key →
  requests (log (analyzeLessonPlanWithGemini rt lessonText w st).2)
  = requests (log st) ++ [GenerateContent key (request_for lessonText)].
Proof.
  intros Hkey. rewrite (analyze_configured _ key), request_and_parse_run by done.
  destruct (service w _ key _) as [reason|[text|]]; simpl;
    [by rewrite requests_console, requests_request| |
     by rewrite requests_console, requests_request].
  destruct (JSON_parse (trim text)) as [parsed|]; simpl;
    [|by rewrite requests_console, requests_request].
  destruct (accepted parsed) eqn:Hacc.
  - rewrite three_assignments_accepted by done. simpl. apply requests_request.
  - destruct (three_assignments_refused parsed w (after_request st key lessonText) Hacc)
      as [n ->]. simpl. by rewrite requests_console, requests_request.
Qed.

(** ** Worlds that show the same clock *)

Lemma stamped_ext prefix w1 w2 c items :
  (∀ k, clock w1 k = clock w2 k) →
  stamped prefix w1 c items = stamped prefix w2 c items.
Proof. intros H. unfold stamped. apply imap_ext. intros i o _. simpl. by rewrite H. Qed.

Lemma assign_objectives_ext name prefix target w1 w2 st :
  (∀ k, clock w1 k = clock w2 k) →
  assign_objectives name prefix target w1 st
  = assign_objectives name prefix target w2 st.
Proof. intros H. rewrite !assign_objectives_run. by rewrite (stamped_ext _ w1 w2). Qed.

Lemma three_assignments_ext parsed w1 w2 st :
  (∀ k, clock w1 k = clock w2 k) →
  three_assignments parsed w1 st = three_assignments parsed w2 st.
Proof.
  intros H. unfold three_assignments, bind.
  rewrite (assign_objectives_ext _ _ _ w1 w2) by done.
  destruct (assign_objectives _ _ parsed w2 st) as [[e|p1] st1]; [done|].
  rewrite (assign_objectives_ext _ _ _ w1 w2) by done.
  destruct (assign_objectives _ _ p1 w2 st1) as [[e|p2] st2]; [done|].
  by rewrite (assign_objectives_ext _ _ _ w1 w2).
Qed.

Lemma lookup_ids (l : list JSValue) (ids : list (list N)) i o :
  id_of <$> l = Some <$> ids → l !! i = Some o →
  ∃ id, ids !! i = Some id ∧ id_of o = Some id.
Proof.
  intros E Ho. apply (f_equal (.!! i)) in E.
  rewrite !list_lookup_fmap, Ho in E. simpl in E.
  destruct (ids !! i) as [id|]; simplify_eq/=. eauto.
Qed.

Lemma prefixes_of_distinct_lists name1 prefix1 name2 prefix2 :
  (name1, prefix1) ∈ objective_lists → (name2, prefix2) ∈ objective_lists →
  name1 ≠ name2 → prefix1 ≠ prefix2.
Proof.
  destruct prefixes_distinct as (Hcp & Hca & Hpa).
  unfold objective_lists. rewrite !elem_of_cons, !elem_of_nil.
  intros [[= -> ->]|[[= -> ->]|[[= -> ->]|[]]]]
         [[= -> ->]|[[= -> ->]|[[= -> ->]|[]]]] Hne; done.
Qed.

Lemma names_listed name :
  name ∈ [cognitiveObjectives; psychomotorObjectives; affectiveObjectives] →
  ∃ prefix, (name, prefix) ∈ objective_lists.
Proof.
  rewrite !elem_of_cons, elem_of_nil. unfold objective_lists.
  intros [->|[->|[->|[]]]];
    [exists (utf16 "cog-"); apply cognitive_listed
    |exists (utf16 "psy-"); apply psychomotor_listed
    |exists (utf16 "aff-"); apply affective_listed].
Qed.

Lemma objectives_of_all plan name o :
  name ∈ [cognitiveObjectives; psychomotorObjectives; affectiveObjectives] →
  o ∈ objectives_of plan name → o ∈ all_objectives plan.
Proof.
  rewrite !elem_of_cons, elem_of_nil. unfold all_objectives.
  intros [->|[->|[->|[]]]] H; rewrite !elem_of_app;
    [left|right; left|right; right]; exact H.
Qed.

(** The forward direction of [labelled_objective]: nothing the service sent
    is dropped. *)
Lemma labelled_objective_sent w c parsed name prefix i o :
  accepted parsed = true →
  (name, prefix) ∈ objective_lists →
  sent_objectives parsed name !! i = Some o →
  ∃ k, (c ≤ k < c + sent_count parsed)
       ∧ objectives_of (labelled w c parsed) name !! i
         = Some (object_with_id o (id_template prefix (clock w k) i)).
Proof.
  intros Hacc Hin Ho.
  destruct (labelled_objectives w c parsed Hacc) as (Hc & Hp & Ha).
  unfold objective_lists in Hin. rewrite !elem_of_cons, elem_of_nil in Hin.
  unfold sent_count. apply lookup_lt_Some in Ho as Hlt.
  destruct Hin as [[= -> ->]|[[= -> ->]|[[= -> ->]|[]]]].
  - exists (c + i). rewrite Hc. split; [lia|]. apply stamped_lookup. eauto.
  - eexists. rewrite Hp. split; [|apply stamped_lookup; eauto]. lia.
  - eexists. rewrite Ha. split; [|apply stamped_lookup; eauto]. lia.
Qed.

(** ** Properties of the service *)

(** C1. Whenever the function returns a plan, every objective of its three
    lists has an id that is a non-empty string; two objectives at different
    positions of one list have different ids, and so have two objectives at
    different positions of the three lists taken together. *)
Theorem objective_ids_nonempty_and_unique rt lessonText w st plan st' :
  analyzeLessonPlanWithGemini rt lessonText w st = (inr plan, st') →
  (∀ o, o ∈ all_objectives plan → ∃ id, id_of o = Some id ∧ id ≠ [])
  ∧ (∀ name i j o1 o2,
       name ∈ [cognitiveObjectives; psychomotorObjectives; affectiveObjectives] →
       objectives_of plan name !! i = Some o1 →
       objectives_of plan name !! j = Some o2 →
       id_of o1 = id_of o2 → i = j)
  ∧ (∀ i j o1 o2,
       all_objectives plan !! i = Some o1 →
       all_objectives plan !! j = Some o2 →
       id_of o1 = id_of o2 → i = j).
Proof.
  intros (key & text & parsed & _ & _ & _ & Hacc & -> & _)%analyze_returns.
  pose proof (ids_labelled w (clock_reads st) parsed Hacc) as Hids.
  pose proof (plan_ids_NoDup w (clock_reads st) parsed Hacc) as Hnodup.
  rewrite plan_ids_labelled in Hnodup by done.
  split_and!.
  - intros o [i Ho]%list_elem_of_lookup.
    destruct (lookup_ids _ _ _ _ Hids Ho) as (id & Hid & Hido).
    exists id. split; [done|].
    assert (id ∈ plan_ids (labelled w (clock_reads st) parsed)) as Hin.
    { rewrite plan_ids_labelled by done. by eapply list_elem_of_lookup_2. }
    apply plan_id_origin in Hin as (? & ? & ? & ? & _ & _ & ->); [|done].
    apply id_template_nonempty.
  - intros name i j o1 o2 [prefix Hname]%names_listed Ho1 Ho2 E.
    destruct (labelled_objective _ _ _ _ _ _ _ Hacc Hname Ho1) as (? & k1 & _ & _ & ->).
    destruct (labelled_objective _ _ _ _ _ _ _ Hacc Hname Ho2) as (? & k2 & _ & _ & ->).
    rewrite !id_of_object_with_id in E. injection E as E.
    by apply id_template_inj in E as (_ & _ & ->).
  - intros i j o1 o2 Ho1 Ho2 E.
    destruct (lookup_ids _ _ _ _ Hids Ho1) as (id1 & Hid1 & Hido1).
    destruct (lookup_ids _ _ _ _ Hids Ho2) as (id2 & Hid2 & Hido2).
    assert (id1 = id2) as -> by congruence.
    by eapply NoDup_lookup.
Qed.

Lemma objective_ids_nonempty_and_unique_witness :
  ∃ plan st',
    analyzeLessonPlanWithGemini configured [] (replying frozen one_of_each) initial
    = (inr plan, st')
    ∧ length (all_objectives plan) = 4
    ∧ (∀ o, o ∈ all_objectives plan → ∃ id, id_of o = Some id ∧ id ≠ [])
    ∧ (∀ i j o1 o2,
         all_objectives plan !! i = Some o1 →
         all_objectives plan !! j = Some o2 →
         id_of o1 = id_of o2 → i = j).
Proof.
  eexists _, _. split; [vm_compute; reflexivity|].
  split; [vm_compute; reflexivity|].
  refine (let H := objective_ids_nonempty_and_unique
                     configured [] (replying frozen one_of_each) initial _ _ _ in
          conj (proj1 H) (proj2 (proj2 H))).
  vm_compute; reflexivity.
Defined.

(** C2. The code breaks the claim where [process] exists without an [env]:
    there no key is configured, yet line 11 throws a TypeError before the
    [try] block.  The caller gets that TypeError, not the error with the
    message for the user, and nothing is written to the console; the comment
    above line 11 promises a clear error message whenever the key is
    missing.  No request is issued in this case either. *)
Theorem missing_env_escapes_as_type_error lessonText w st :
  credential ProcessWithoutEnv = None
  ∧ analyzeLessonPlanWithGemini ProcessWithoutEnv lessonText w st = (inl TypeError, st)
  ∧ TypeError ≠ Error missing_key_message.
Proof. split_and!; [done|apply analyze_without_env|done]. Qed.

(** X14. Where [process] does not exist, or exists with an [env] whose
    [API_KEY] is undefined or empty, the function fails with the error that
    carries the message for the user, which is not the message of the generic
    failure; nothing is requested from the service: the only effect is a line
    on the console. *)
Theorem missing_credential_fails_before_any_request rt lessonText w st :
  rt ≠ ProcessWithoutEnv →
  credential rt = None →
  ∃ st', analyzeLessonPlanWithGemini rt lessonText w st
         = (inl (Error missing_key_message), st')
       ∧ missing_key_message ≠ []
       ∧ missing_key_message ≠ failure_message
       ∧ log st' = log st ++ [ConsoleError missing_key_log None]
       ∧ requests (log st') = requests (log st)
       ∧ clock_reads st' = clock_reads st.
Proof.
  intros Henv Hcred. rewrite analyze_unconfigured by done.
  eexists. split_and!; [done| | |done| |done].
  - intros E. vm_compute in E. discriminate.
  - intros E. vm_compute in E. discriminate.
  - simpl. apply requests_console.
Qed.

Lemma missing_credential_fails_before_any_request_witness :
  ∃ st', analyzeLessonPlanWithGemini NoProcess (utf16 "A lesson about poetry")
           (replying frozen one_objective) initial
         = (inl (Error missing_key_message), st')
       ∧ missing_key_message ≠ []
       ∧ missing_key_message ≠ failure_message
       ∧ log st' = log initial ++ [ConsoleError missing_key_log None]
       ∧ requests (log st') = requests (log initial)
       ∧ clock_reads st' = clock_reads initial.
Proof.
  apply (missing_credential_fails_before_any_request NoProcess);
    [discriminate|reflexivity].
Defined.

(** C3. When the reply is JSON that has no property for one of the three
    objective lists, that property of the returned plan is the empty array. *)
Theorem omitted_list_is_empty rt lessonText w st key text parsed name plan st' :
  credential rt = Some key →
  service w (length (requests (log st))) key (request_for lessonText)
    = Responds (Some text) →
  JSON_parse (trim text) = Some parsed →
  name ∈ [cognitiveObjectives; psychomotorObjectives; affectiveObjectives] →
  own_property parsed name = None →
  analyzeLessonPlanWithGemini rt lessonText w st = (inr plan, st') →
  own_property plan name = Some (VArr [] ∅).
Proof.
  intros Hkey Hs Hp Hname Hnone
    (key' & text' & parsed' & Hkey' & Hs' & Hp' & Hacc & -> & _)%analyze_returns.
  assert (parsed' = parsed) as -> by congruence.
  rewrite labelled_property by done. do 2 f_equal.
  destruct (labelled_objectives w (clock_reads st) parsed Hacc) as (Hc & Hpsy & Ha).
  rewrite !elem_of_cons, elem_of_nil in Hname.
  destruct Hname as [->|[->|[->|[]]]].
  - rewrite Hc. unfold sent_objectives. by rewrite Hnone.
  - rewrite Hpsy. unfold sent_objectives at 2. by rewrite Hnone.
  - rewrite Ha. unfold sent_objectives at 3. by rewrite Hnone.
Qed.

Lemma omitted_list_is_empty_witness :
  ∃ plan st',
    analyzeLessonPlanWithGemini configured [] (replying frozen no_lists) initial
    = (inr plan, st')
    ∧ own_property plan affectiveObjectives = Some (VArr [] ∅).
Proof.
  eexists _, _. split; [vm_compute; reflexivity|].
  eapply (omitted_list_is_empty configured [] (replying frozen no_lists) initial
            _ no_lists _ affectiveObjectives);
    [vm_compute; reflexivity | vm_compute; reflexivity | vm_compute; reflexivity
    | rewrite !elem_of_cons; auto | vm_compute; reflexivity
    | vm_compute; reflexivity].
Defined.

(** C4, as claimed, fails: a reply that is not JSON makes the function fail
    with the very error it raises when the request itself fails, so the two
    cannot be told apart by the caller. *)
Lemma format_error_not_distinguished :
  ¬ (∀ rt lessonText now st text reason,
       credential rt ≠ None →
       JSON_parse (trim text) = None →
       ∃ e st',
         analyzeLessonPlanWithGemini rt lessonText (replying now text) st = (inl e, st')
         ∧ ∀ st'', analyzeLessonPlanWithGemini rt lessonText (failing now reason) st
                   ≠ (inl e, st'')).
Proof.
  intros H.
  destruct (H configured [] frozen initial not_json (utf16 "offline"))
    as (e & st' & Hrun & Hdiff); [done|vm_compute; reflexivity|].
  vm_compute in Hrun. injection Hrun as <- <-.
  eapply Hdiff. vm_compute. reflexivity.
Qed.

(** C4, amended. A reply whose trimmed text is not JSON makes the function
    fail with the generic analysis failure, the same error as for a failed
    request; the syntax error is only written to the console, and no plan is
    returned. *)
Theorem unparseable_reply_fails_generically rt lessonText w st key text :
  credential rt = Some key →
  service w (length (requests (log st))) key (request_for lessonText)
    = Responds (Some text) →
  JSON_parse (trim text) = None →
  analyzeLessonPlanWithGemini rt lessonText w st
  = (inl (Error failure_message),
     {| clock_reads := clock_reads st;
        log := log st ++ [GenerateContent key (request_for lessonText);
                          ConsoleError failure_log (Some SyntaxError)] |}).
Proof.
  intros Hkey Hs Hp.
  rewrite (analyze_configured _ key), request_and_parse_run, Hs, Hp by done.
  unfold after_failure, after_request. simpl. by rewrite <- (assoc_L (++)).
Qed.

Lemma unparseable_reply_fails_generically_witness :
  analyzeLessonPlanWithGemini configured [] (replying frozen not_json) initial
  = (inl (Error failure_message),
     {| clock_reads := 0;
        log := [GenerateContent (utf16 "secret") (request_for []);
                ConsoleError failure_log (Some SyntaxError)] |}).
Proof.
  apply (unparseable_reply_fails_generically configured [] (replying frozen not_json)
           initial (utf16 "secret") not_json);
    vm_compute; reflexivity.
Defined.

(** C5, as claimed, fails: two calls made while the clock shows the same
    millisecond give the same id to their first cognitive objective. *)
Lemma ids_reused_within_a_millisecond :
  ¬ (∀ rt1 lessonText1 rt2 lessonText2 w st plan1 st1 plan2 st2,
       analyzeLessonPlanWithGemini rt1 lessonText1 w st = (inr plan1, st1) →
       analyzeLessonPlanWithGemini rt2 lessonText2 w st1 = (inr plan2, st2) →
       ∀ id, id ∈ plan_ids plan1 → id ∉ plan_ids plan2).
Proof.
  intros H.
  refine (H configured [] configured [] (replying frozen one_objective) initial
            _ _ _ _ _ _ (utf16 "cog-1700000000000-0") _ _).
  - vm_compute. reflexivity.
  - vm_compute. reflexivity.
  - vm_compute. left.
  - vm_compute. left.
Qed.

(** C5, amended. The ids of two calls that return are disjoint provided no
    clock reading of the one call equals a clock reading of the other. *)
Theorem ids_disjoint_when_clock_differs
    rt1 lessonText1 rt2 lessonText2 w st1 plan1 st1' st2 plan2 st2' :
  analyzeLessonPlanWithGemini rt1 lessonText1 w st1 = (inr plan1, st1') →
  analyzeLessonPlanWithGemini rt2 lessonText2 w st2 = (inr plan2, st2') →
  (∀ k1 k2, clock_reads st1 ≤ k1 < clock_reads st1' →
            clock_reads st2 ≤ k2 < clock_reads st2' →
            clock w k1 ≠ clock w k2) →
  ∀ id, id ∈ plan_ids plan1 → id ∉ plan_ids plan2.
Proof.
  intros (? & ? & parsed1 & _ & _ & _ & Hacc1 & -> & ->)%analyze_returns
         (? & ? & parsed2 & _ & _ & _ & Hacc2 & -> & ->)%analyze_returns
         Hclock id Hin1 Hin2. simpl in Hclock.
  apply plan_id_origin in Hin1 as (n1 & p1 & k1 & i1 & Hp1 & Hk1 & ->); [|done].
  apply plan_id_origin in Hin2 as (n2 & p2 & k2 & i2 & Hp2 & Hk2 & E); [|done].
  apply id_template_inj in E as (_ & E & _).
  - by eapply Hclock.
  - apply objective_prefix_length in Hp1, Hp2. congruence.
Qed.

Lemma ids_disjoint_when_clock_differs_witness :
  ∃ plan1 st1 plan2 st2,
    analyzeLessonPlanWithGemini configured [] (replying ticking one_objective) initial
    = (inr plan1, st1)
    ∧ st1 = {| clock_reads := 1;
               log := [GenerateContent (utf16 "secret") (request_for [])] |}
    ∧ analyzeLessonPlanWithGemini configured [] (replying ticking one_objective) st1
      = (inr plan2, st2)
    ∧ plan_ids plan1 = [utf16 "cog-1700000000000-0"]
    ∧ plan_ids plan2 = [utf16 "cog-1700000000001-0"]
    ∧ ∀ id, id ∈ plan_ids plan1 → id ∉ plan_ids plan2.
Proof.
  eexists _, {| clock_reads := 1;
                log := [GenerateContent (utf16 "secret") (request_for [])] |}, _, _.
  split; [vm_compute; reflexivity|].
  split; [reflexivity|].
  split; [vm_compute; reflexivity|].
  split; [vm_compute; reflexivity|].
  split; [vm_compute; reflexivity|].
  eapply (ids_disjoint_when_clock_differs configured [] configured []
            (replying ticking one_objective) initial _ _
            {| clock_reads := 1;
               log := [GenerateContent (utf16 "secret") (request_for [])] |}).
  - vm_compute; reflexivity.
  - vm_compute; reflexivity.
  - cbn [clock_reads clock replying initial]. unfold ticking.
    intros k1 k2 H1 H2. lia.
Defined.

(** C6. When the request itself fails, the function fails with the generic
    analysis failure; the reason goes to the console only, the request was
    issued once and is not repeated. *)
Theorem rejected_request_fails_without_retry rt lessonText w st key reason :
  credential rt = Some key →
  service w (length (requests (log st))) key (request_for lessonText)
    = Rejects reason →
  ∃ st',
    analyzeLessonPlanWithGemini rt lessonText w st
    = (inl (Error failure_message), st')
    ∧ log st' = log st ++ [GenerateContent key (request_for lessonText);
                           ConsoleError failure_log (Some (Rejected reason))]
    ∧ requests (log st')
      = requests (log st) ++ [GenerateContent key (request_for lessonText)]
    ∧ clock_reads st' = clock_reads st.
Proof.
  intros Hkey Hs.
  rewrite (analyze_configured _ key), request_and_parse_run, Hs by done.
  eexists. split; [done|]. simpl. rewrite <- (assoc_L (++)). simpl.
  split_and!; [done| |done].
  change [GenerateContent key (request_for lessonText);
          ConsoleError failure_log (Some (Rejected reason))]
    with ([GenerateContent key (request_for lessonText)]
          ++ [ConsoleError failure_log (Some (Rejected reason))]).
  by rewrite (assoc_L (++)), requests_console, requests_request.
Qed.

Lemma rejected_request_fails_without_retry_witness :
  ∃ st',
    analyzeLessonPlanWithGemini configured [] (failing frozen (utf16 "offline")) initial
    = (inl (Error failure_message), st')
    ∧ log st' = log initial
                ++ [GenerateContent (utf16 "secret") (request_for []);
                    ConsoleError failure_log (Some (Rejected (utf16 "offline")))]
    ∧ requests (log st')
      = requests (log initial) ++ [GenerateContent (utf16 "secret") (request_for [])]
    ∧ clock_reads st' = clock_reads initial.
Proof.
  apply (rejected_request_fails_without_retry configured []
           (failing frozen (utf16 "offline")) initial);
    vm_compute; reflexivity.
Defined.

(** C7. In a returned plan, the objective at index [i] of a list is the
    element the service sent at that index with its [id] set to the string
    made here from the prefix of the list, a clock reading of this call and
    [i]; whatever [id] the element came with is overwritten. *)
Theorem ids_are_generated_locally rt lessonText w st plan st' :
  analyzeLessonPlanWithGemini rt lessonText w st = (inr plan, st') →
  ∃ key text parsed,
    credential rt = Some key
    ∧ service w (length (requests (log st))) key (request_for lessonText)
      = Responds (Some text)
    ∧ JSON_parse (trim text) = Some parsed
    ∧ ∀ name prefix i o,
        (name, prefix) ∈ objective_lists →
        sent_objectives parsed name !! i = Some o →
        ∃ k o',
          clock_reads st ≤ k < clock_reads st'
          ∧ objectives_of plan name !! i = Some o'
          ∧ o' = object_with_id o (id_template prefix (clock w k) i)
          ∧ id_of o' = Some (id_template prefix (clock w k) i).
Proof.
  intros (key & text & parsed & Hkey & Hs & Hp & Hacc & -> & ->)%analyze_returns.
  exists key, text, parsed. split_and!; [done..|].
  intros name prefix i o Hname Ho. simpl.
  destruct (labelled_objective_sent w (clock_reads st) parsed name prefix i o)
    as (k & Hk & Hlookup); [done..|].
  exists k, (object_with_id o (id_template prefix (clock w k) i)).
  split_and!; [lia|lia|done|done|apply id_of_object_with_id].
Qed.

Lemma ids_are_generated_locally_witness :
  ∃ plan st',
    analyzeLessonPlanWithGemini configured []
      (replying frozen objective_with_remote_id) initial = (inr plan, st')
    ∧ (λ parsed, id_of <$> sent_objectives parsed cognitiveObjectives)
        <$> JSON_parse (trim objective_with_remote_id)
      = Some [Some (utf16 "remote-1")]
    ∧ id_of <$> objectives_of plan cognitiveObjectives
      = [Some (utf16 "cog-1700000000000-0")]
    ∧ ∃ key text parsed,
        credential configured = Some key
        ∧ service (replying frozen objective_with_remote_id)
            (length (requests (log initial))) key (request_for [])
          = Responds (Some text)
        ∧ JSON_parse (trim text) = Some parsed
        ∧ ∀ name prefix i o,
            (name, prefix) ∈ objective_lists →
            sent_objectives parsed name !! i = Some o →
            ∃ k o',
              clock_reads initial ≤ k < clock_reads st'
              ∧ objectives_of plan name !! i = Some o'
              ∧ o' = object_with_id o (id_template prefix (frozen k) i)
              ∧ id_of o' = Some (id_template prefix (frozen k) i).
Proof.
  eexists _, _. split; [vm_compute; reflexivity|].
  split; [vm_compute; reflexivity|].
  split; [vm_compute; reflexivity|].
  apply (ids_are_generated_locally configured []
           (replying frozen objective_with_remote_id) initial).
  vm_compute; reflexivity.
Defined.

(** C8. In a returned plan every id of a cognitive objective starts with
    [cog-], of a psychomotor objective with [psy-], of an affective objective
    with [aff-]; hence objectives of two different lists never have the same
    id, whatever the clock showed. *)
Theorem ids_carry_list_prefix rt lessonText w st plan st' :
  analyzeLessonPlanWithGemini rt lessonText w st = (inr plan, st') →
  (∀ name prefix o,
     (name, prefix) ∈ objective_lists → o ∈ objectives_of plan name →
     ∃ rest, id_of o = Some (prefix ++ rest))
  ∧ (∀ name1 prefix1 name2 prefix2 o1 o2,
       (name1, prefix1) ∈ objective_lists → (name2, prefix2) ∈ objective_lists →
       name1 ≠ name2 →
       o1 ∈ objectives_of plan name1 → o2 ∈ objectives_of plan name2 →
       id_of o1 ≠ id_of o2).
Proof.
  intros (key & text & parsed & _ & _ & _ & Hacc & -> & _)%analyze_returns.
  assert (∀ name prefix o,
            (name, prefix) ∈ objective_lists →
            o ∈ objectives_of (labelled w (clock_reads st) parsed) name →
            ∃ rest, id_of o = Some (prefix ++ rest)) as Hprefix.
  { intros name prefix o Hname [i Ho]%list_elem_of_lookup.
    destruct (labelled_objective _ _ _ _ _ _ _ Hacc Hname Ho) as (? & k & _ & _ & ->).
    rewrite id_of_object_with_id. unfold id_template. eauto. }
  split; [done|].
  intros name1 prefix1 name2 prefix2 o1 o2 Hn1 Hn2 Hne Ho1 Ho2 E.
  destruct (Hprefix _ _ _ Hn1 Ho1) as [rest1 E1].
  destruct (Hprefix _ _ _ Hn2 Ho2) as [rest2 E2].
  rewrite E1, E2 in E. injection E as E.
  apply app_inj_1 in E as [E _].
  - exact (prefixes_of_distinct_lists _ _ _ _ Hn1 Hn2 Hne E).
  - apply objective_prefix_length in Hn1, Hn2. congruence.
Qed.

Lemma ids_carry_list_prefix_witness :
  ∃ plan st',
    analyzeLessonPlanWithGemini configured [] (replying frozen one_of_each) initial
    = (inr plan, st')
    ∧ (∀ name prefix o,
         (name, prefix) ∈ objective_lists → o ∈ objectives_of plan name →
         ∃ rest, id_of o = Some (prefix ++ rest))
    ∧ (∀ name1 prefix1 name2 prefix2 o1 o2,
         (name1, prefix1) ∈ objective_lists → (name2, prefix2) ∈ objective_lists →
         name1 ≠ name2 →
         o1 ∈ objectives_of plan name1 → o2 ∈ objectives_of plan name2 →
         id_of o1 ≠ id_of o2).
Proof.
  eexists _, _. split; [vm_compute; reflexivity|].
  eapply (ids_carry_list_prefix configured [] (replying frozen one_of_each) initial).
  vm_compute; reflexivity.
Defined.

(** C9, as claimed, fails: [null] is a JSON document, yet the function fails
    on it, with or without white space around it. *)
Lemma valid_json_may_fail :
  ¬ (∀ rt lessonText now st ws1 doc ws2,
       credential rt ≠ None →
       Forall (λ c, is_white_space c = true) ws1 →
       Forall (λ c, is_white_space c = true) ws2 →
       is_Some (JSON_parse doc) →
       ∃ plan st',
         analyzeLessonPlanWithGemini rt lessonText (replying now (ws1 ++ doc ++ ws2)) st
         = (inr plan, st')
         ∧ analyzeLessonPlanWithGemini rt lessonText (replying now doc) st
           = (inr plan, st')).
Proof.
  intros H.
  destruct (H configured [] frozen initial [32%N] null_document [32%N])
    as (plan & st' & Hrun & _).
  - done.
  - repeat constructor.
  - repeat constructor.
  - vm_compute. eauto.
  - vm_compute in Hrun. discriminate.
Qed.

(** C9, amended. White space around the text of a reply changes nothing: the
    function returns the same plan, or fails in the same way, as for the text
    alone.  It returns exactly when the trimmed text is a JSON object or array
    whose three objective properties are each missing, falsy or an array. *)
Theorem surrounding_white_space_is_ignored
    rt lessonText w1 w2 st key ws1 doc ws2 :
  credential rt = Some key →
  Forall (λ c, is_white_space c = true) ws1 →
  Forall (λ c, is_white_space c = true) ws2 →
  (∀ k, clock w1 k = clock w2 k) →
  service w1 (length (requests (log st))) key (request_for lessonText)
    = Responds (Some (ws1 ++ doc ++ ws2)) →
  service w2 (length (requests (log st))) key (request_for lessonText)
    = Responds (Some doc) →
  analyzeLessonPlanWithGemini rt lessonText w1 st
  = analyzeLessonPlanWithGemini rt lessonText w2 st
  ∧ ((∃ plan st', analyzeLessonPlanWithGemini rt lessonText w1 st = (inr plan, st'))
     ↔ ∃ parsed, JSON_parse (trim doc) = Some parsed ∧ accepted parsed = true).
Proof.
  intros Hkey Hws1 Hws2 Hclock Hs1 Hs2. split.
  - rewrite !(analyze_configured _ key), !request_and_parse_run, Hs1, Hs2 by done.
    rewrite trim_surrounded by done.
    destruct (JSON_parse (trim doc)) as [parsed|]; [|done].
    by rewrite (three_assignments_ext _ w1 w2).
  - split.
    + intros (plan & st' & Hrun).
      apply analyze_returns in Hrun
        as (key' & text & parsed & Hkey' & Hs & Hp & Hacc & _).
      assert (text = ws1 ++ doc ++ ws2) as -> by congruence.
      rewrite trim_surrounded in Hp by done. eauto.
    + intros (parsed & Hp & Hacc). eexists _, _.
      eapply analyze_accepts; [done..| |done].
      by rewrite trim_surrounded.
Qed.

Lemma surrounding_white_space_is_ignored_witness :
  analyzeLessonPlanWithGemini configured []
    (replying frozen ([32; 10; 160] ++ one_objective ++ [13; 9; 65279])%N) initial
  = analyzeLessonPlanWithGemini configured [] (replying frozen one_objective) initial
  ∧ ((∃ plan st',
        analyzeLessonPlanWithGemini configured []
          (replying frozen ([32; 10; 160] ++ one_objective ++ [13; 9; 65279])%N) initial
        = (inr plan, st'))
     ↔ ∃ parsed, JSON_parse (trim one_objective) = Some parsed ∧ accepted parsed = true).
Proof.
  apply (surrounding_white_space_is_ignored configured []
           (replying frozen ([32; 10; 160] ++ one_objective ++ [13; 9; 65279])%N)
           (replying frozen one_objective) initial (utf16 "secret")
           [32; 10; 160]%N one_objective [13; 9; 65279]%N).
  - vm_compute; reflexivity.
  - repeat constructor.
  - repeat constructor.
  - reflexivity.
  - reflexivity.
  - reflexivity.
Defined.

(** C10. With a key configured, exactly one request is issued, and its
    instruction text is the fixed opening, then the lesson text as it was
    given, then the fixed ending. *)
Theorem prompt_contains_lesson_text rt lessonText w st key :
  credential rt = Some key →
  ∃ request,
    requests (log (analyzeLessonPlanWithGemini rt lessonText w st).2)
    = requests (log st) ++ [GenerateContent key request]
    ∧ contents request = prompt_before ++ lessonText ++ prompt_after.
Proof.
  intros Hkey. exists (request_for lessonText). split; [|done].
  by apply analyze_requests.
Qed.

Lemma prompt_contains_lesson_text_witness :
  ∃ request,
    requests (log (analyzeLessonPlanWithGemini configured
                     (utf16 "Lesson: <b>poetry</b> & ${x} `y`")
                     (replying frozen one_objective) initial).2)
    = requests (log initial) ++ [GenerateContent (utf16 "secret") request]
    ∧ contents request
      = prompt_before ++ utf16 "Lesson: <b>poetry</b> & ${x} `y`" ++ prompt_after.
Proof.
  apply (prompt_contains_lesson_text configured). vm_compute; reflexivity.
Defined.

(** * Further properties of the service *)

Lemma items_of_assigned target name v :
  items_of (assigned target name v) = items_of target.
Proof. by destruct target. Qed.

Lemma own_property_labelled_other w c parsed name :
  name ∉ [cognitiveObjectives; psychomotorObjectives; affectiveObjectives] →
  own_property (labelled w c parsed) name = own_property parsed name.
Proof.
  rewrite !not_elem_of_cons. intros (Hc & Hp & Ha & _). unfold labelled.
  rewrite (own_property_assigned_ne _ affectiveObjectives) by by apply not_eq_sym.
  rewrite (own_property_assigned_ne _ psychomotorObjectives) by by apply not_eq_sym.
  by rewrite (own_property_assigned_ne _ cognitiveObjectives) by by apply not_eq_sym.
Qed.

(** X1. Whatever else the reply holds is handed on as it came: a property
    under any other name than the three lists is the same in the returned
    plan as in the parsed reply, and so are the items of a reply that is an
    array. *)
Theorem other_properties_pass_through rt lessonText w st plan st' :
  analyzeLessonPlanWithGemini rt lessonText w st = (inr plan, st') →
  ∃ key text parsed,
    credential rt = Some key
    ∧ service w (length (requests (log st))) key (request_for lessonText)
      = Responds (Some text)
    ∧ JSON_parse (trim text) = Some parsed
    ∧ (∀ name,
         name ∉ [cognitiveObjectives; psychomotorObjectives; affectiveObjectives] →
         own_property plan name = own_property parsed name)
    ∧ items_of plan = items_of parsed.
Proof.
  intros (key & text & parsed & Hkey & Hs & Hp & Hacc & -> & _)%analyze_returns.
  exists key, text, parsed. split_and!; [done..| |].
  - intros name Hname. by apply own_property_labelled_other.
  - unfold labelled. by rewrite !items_of_assigned.
Qed.

Lemma other_properties_pass_through_witness :
  ∃ plan st',
    analyzeLessonPlanWithGemini configured [] (replying frozen no_lists) initial
    = (inr plan, st')
    ∧ own_property plan (utf16 "lessonTitle") = Some (VStr (utf16 "Poetry"))
    ∧ ∃ key text parsed,
        credential configured = Some key
        ∧ service (replying frozen no_lists) (length (requests (log initial))) key
            (request_for []) = Responds (Some text)
        ∧ JSON_parse (trim text) = Some parsed
        ∧ (∀ name,
             name ∉ [cognitiveObjectives; psychomotorObjectives; affectiveObjectives] →
             own_property plan name = own_property parsed name)
        ∧ items_of plan = items_of parsed.
Proof.
  eexists _, _. split; [vm_compute; reflexivity|].
  split; [vm_compute; reflexivity|].
  eapply (other_properties_pass_through configured [] (replying frozen no_lists) initial).
  vm_compute; reflexivity.
Defined.

Lemma own_property_object_with_id o id name :
  name ≠ utf16 "id" →
  own_property (object_with_id o id) name = spread o !! name.
Proof. intros Hne. unfold object_with_id. simpl. by rewrite lookup_insert_ne. Qed.

(** X2. An objective keeps what the service sent with it: every property of
    a sent object other than [id] (its level, formulation, evaluation and
    anything else) has the same value in the returned objective at the same
    index. *)
Theorem objective_fields_are_kept rt lessonText w st plan st' :
  analyzeLessonPlanWithGemini rt lessonText w st = (inr plan, st') →
  ∃ key text parsed,
    credential rt = Some key
    ∧ service w (length (requests (log st))) key (request_for lessonText)
      = Responds (Some text)
    ∧ JSON_parse (trim text) = Some parsed
    ∧ ∀ name prefix i props,
        (name, prefix) ∈ objective_lists →
        sent_objectives parsed name !! i = Some (VObj props) →
        ∃ o', objectives_of plan name !! i = Some o'
              ∧ ∀ field, field ≠ utf16 "id" → own_property o' field = props !! field.
Proof.
  intros (key & text & parsed & Hkey & Hs & Hp & Hacc & -> & ->)%analyze_returns.
  exists key, text, parsed. split_and!; [done..|].
  intros name prefix i props Hname Ho.
  destruct (labelled_objective_sent w (clock_reads st) parsed name prefix i _ Hacc Hname Ho)
    as (k & _ & Hlookup).
  eexists. split; [exact Hlookup|].
  intros field Hfield. by rewrite own_property_object_with_id.
Qed.

Lemma objective_fields_are_kept_witness :
  ∃ plan st',
    analyzeLessonPlanWithGemini configured []
      (replying frozen objective_with_remote_id) initial = (inr plan, st')
    ∧ (λ o, own_property o (utf16 "level")) <$> objectives_of plan cognitiveObjectives
      = [Some (VStr (utf16 "remember"))]
    ∧ ∃ key text parsed,
        credential configured = Some key
        ∧ service (replying frozen objective_with_remote_id)
            (length (requests (log initial))) key (request_for [])
          = Responds (Some text)
        ∧ JSON_parse (trim text) = Some parsed
        ∧ ∀ name prefix i props,
            (name, prefix) ∈ objective_lists →
            sent_objectives parsed name !! i = Some (VObj props) →
            ∃ o', objectives_of plan name !! i = Some o'
                  ∧ ∀ field, field ≠ utf16 "id" →
                             own_property o' field = props !! field.
Proof.
  eexists _, _. split; [vm_compute; reflexivity|].
  split; [vm_compute; reflexivity|].
  eapply (objective_fields_are_kept configured []
            (replying frozen objective_with_remote_id) initial).
  vm_compute; reflexivity.
Defined.

Lemma length_objectives_labelled w c parsed name :
  accepted parsed = true →
  name ∈ [cognitiveObjectives; psychomotorObjectives; affectiveObjectives] →
  length (objectives_of (labelled w c parsed) name)
  = length (sent_objectives parsed name).
Proof.
  intros Hacc Hname.
  destruct (labelled_objectives w c parsed Hacc) as (Hc & Hp & Ha).
  rewrite !elem_of_cons, elem_of_nil in Hname.
  destruct Hname as [->|[->|[->|[]]]].
  - rewrite Hc. apply length_stamped.
  - rewrite Hp. apply length_stamped.
  - rewrite Ha. apply length_stamped.
Qed.

(** X3. A call that returns reads the clock once for each objective it
    returns, and returns as many objectives in each list as the service
    sent. *)
Theorem clock_is_read_once_per_objective rt lessonText w st plan st' :
  analyzeLessonPlanWithGemini rt lessonText w st = (inr plan, st') →
  clock_reads st' = clock_reads st + length (all_objectives plan)
  ∧ ∃ key text parsed,
      credential rt = Some key
      ∧ service w (length (requests (log st))) key (request_for lessonText)
        = Responds (Some text)
      ∧ JSON_parse (trim text) = Some parsed
      ∧ ∀ name,
          name ∈ [cognitiveObjectives; psychomotorObjectives; affectiveObjectives] →
          length (objectives_of plan name) = length (sent_objectives parsed name).
Proof.
  intros (key & text & parsed & Hkey & Hs & Hp & Hacc & -> & ->)%analyze_returns.
  split.
  - rewrite all_objectives_labelled by done.
    rewrite !length_app, !length_stamped. unfold sent_count. simpl. lia.
  - exists key, text, parsed. split_and!; [done..|].
    intros name Hname. by apply length_objectives_labelled.
Qed.

Lemma clock_is_read_once_per_objective_witness :
  ∃ plan st',
    analyzeLessonPlanWithGemini configured [] (replying frozen one_of_each) initial
    = (inr plan, st')
    ∧ clock_reads st' = 4
    ∧ clock_reads st' = clock_reads initial + length (all_objectives plan).
Proof.
  eexists _, _. split; [vm_compute; reflexivity|].
  split; [vm_compute; reflexivity|].
  eapply (clock_is_read_once_per_objective configured []
            (replying frozen one_of_each) initial).
  vm_compute; reflexivity.
Defined.

(** X4. A response without text makes the function fail with the generic
    failure: reading [trim] from undefined throws inside the [try] block; the
    request was issued, the clock is not read. *)
Theorem missing_text_fails_generically rt lessonText w st key :
  credential rt = Some key →
  service w (length (requests (log st))) key (request_for lessonText)
    = Responds None →
  analyzeLessonPlanWithGemini rt lessonText w st
  = (inl (Error failure_message),
     {| clock_reads := clock_reads st;
        log := log st ++ [GenerateContent key (request_for lessonText);
                          ConsoleError failure_log (Some TypeError)] |}).
Proof.
  intros Hkey Hs.
  rewrite (analyze_configured _ key), request_and_parse_run, Hs by done.
  unfold after_failure, after_request. simpl. by rewrite <- (assoc_L (++)).
Qed.

Lemma missing_text_fails_generically_witness :
  analyzeLessonPlanWithGemini configured [] (silent frozen) initial
  = (inl (Error failure_message),
     {| clock_reads := 0;
        log := [GenerateContent (utf16 "secret") (request_for []);
                ConsoleError failure_log (Some TypeError)] |}).
Proof.
  apply (missing_text_fails_generically configured [] (silent frozen) initial
           (utf16 "secret")); vm_compute; reflexivity.
Defined.

(** X5. A reply that is JSON but not an object or array, or that has under
    one of the three names a truthy value that is not an array, makes the
    function fail with the generic failure: a TypeError is thrown by the
    assignments and only written to the console; no plan is returned, even
    when earlier lists had already been given their ids. *)
Theorem refused_reply_fails_generically rt lessonText w st key text parsed :
  credential rt = Some key →
  service w (length (requests (log st))) key (request_for lessonText)
    = Responds (Some text) →
  JSON_parse (trim text) = Some parsed →
  accepted parsed = false →
  ∃ st',
    analyzeLessonPlanWithGemini rt lessonText w st
    = (inl (Error failure_message), st')
    ∧ log st' = log st ++ [GenerateContent key (request_for lessonText);
                           ConsoleError failure_log (Some TypeError)].
Proof.
  intros Hkey Hs Hp Hacc.
  destruct (analyze_refuses rt lessonText w st key text parsed Hkey Hs Hp Hacc)
    as [n ->].
  by eexists.
Qed.

Lemma refused_reply_fails_generically_witness :
  ∃ st',
    analyzeLessonPlanWithGemini configured [] (replying frozen list_is_a_number) initial
    = (inl (Error failure_message), st')
    ∧ log st' = log initial ++ [GenerateContent (utf16 "secret") (request_for []);
                                ConsoleError failure_log (Some TypeError)].
Proof.
  eapply (refused_reply_fails_generically configured []
            (replying frozen list_is_a_number) initial (utf16 "secret")
            list_is_a_number);
    vm_compute; reflexivity.
Defined.

(** X6. The function returns a plan exactly when a key is configured, the
    service answers with a text, the trimmed text is JSON, and the parsed
    value is an object or array whose three objective properties are each
    missing, falsy or an array. *)
Theorem returns_exactly_when_accepted rt lessonText w st :
  (∃ plan st', analyzeLessonPlanWithGemini rt lessonText w st = (inr plan, st'))
  ↔ ∃ key text parsed,
      credential rt = Some key
      ∧ service w (length (requests (log st))) key (request_for lessonText)
        = Responds (Some text)
      ∧ JSON_parse (trim text) = Some parsed
      ∧ accepted parsed = true.
Proof.
  split.
  - intros (plan & st' & Hrun).
    apply analyze_returns in Hrun as (key & text & parsed & ? & ? & ? & ? & _).
    by exists key, text, parsed.
  - intros (key & text & parsed & Hkey & Hs & Hp & Hacc).
    eexists _, _. by eapply analyze_accepts.
Qed.

(** X7. Whatever goes wrong, the caller sees one of three errors: the
    TypeError of line 11 when [process] exists without an [env]; the message
    about the missing key when line 11 finds no key; the generic failure
    otherwise.  An error thrown inside the [try] block never reaches the
    caller. *)
Theorem errors_that_reach_the_caller rt lessonText w st e st' :
  analyzeLessonPlanWithGemini rt lessonText w st = (inl e, st') →
  (rt = ProcessWithoutEnv ∧ e = TypeError)
  ∨ (rt ≠ ProcessWithoutEnv ∧ credential rt = None ∧ e = Error missing_key_message)
  ∨ (credential rt ≠ None ∧ e = Error failure_message).
Proof.
  destruct (with_env_or_without rt) as [->|Henv].
  - rewrite analyze_without_env. intros [= <- <-]. by left.
  - destruct (credential rt) as [key|] eqn:Hkey.
    + rewrite (analyze_configured _ key) by done.
      destruct (request_and_parse key lessonText w st) as [[error|plan] st1];
        intros [= <- <-]. by right; right.
    + rewrite analyze_unconfigured by done. intros [= <- <-]. by right; left.
Qed.

Lemma errors_that_reach_the_caller_witness :
  (configured = ProcessWithoutEnv ∧ Error failure_message = TypeError)
  ∨ (configured ≠ ProcessWithoutEnv ∧ credential configured = None
     ∧ Error failure_message = Error missing_key_message)
  ∨ (credential configured ≠ None ∧ Error failure_message = Error failure_message).
Proof.
  eapply (errors_that_reach_the_caller configured []
            (failing frozen (utf16 "offline")) initial).
  vm_compute; reflexivity.
Defined.

(** X8. A request is issued exactly when [process] exists with an [env]
    whose [API_KEY] is a non-empty string, and then with that very key.
    Without a [process], or with an [API_KEY] that is undefined or empty, the
    function fails with the message about the key and issues no request; with
    a [process] that has no [env], it fails with a TypeError and nothing else
    happens. *)
Theorem request_is_issued_exactly_with_a_key rt lessonText w st :
  (∃ key, rt = Process (Some key) ∧ key ≠ []
          ∧ requests (log (analyzeLessonPlanWithGemini rt lessonText w st).2)
            = requests (log st) ++ [GenerateContent key (request_for lessonText)])
  ∨ ((rt = NoProcess ∨ rt = Process None ∨ rt = Process (Some []))
     ∧ analyzeLessonPlanWithGemini rt lessonText w st
       = (inl (Error missing_key_message),
          {| clock_reads := clock_reads st;
             log := log st ++ [ConsoleError missing_key_log None] |}))
  ∨ (rt = ProcessWithoutEnv
     ∧ analyzeLessonPlanWithGemini rt lessonText w st = (inl TypeError, st)).
Proof.
  destruct rt as [| |[key|]].
  - right; left. split; [by left|]. by apply analyze_unconfigured.
  - right; right. split; [done|]. apply analyze_without_env.
  - destruct (decide (key = [])) as [->|Hne].
    + right; left. split; [by right; right|]. by apply analyze_unconfigured.
    + left. exists key. split_and!; [done..|].
      apply analyze_requests. simpl. by rewrite bool_decide_eq_false_2.
  - right; left. split; [by right; left|]. by apply analyze_unconfigured.
Qed.

Lemma console_lines_console l message detail :
  console_lines (l ++ [ConsoleError message detail])
  = console_lines l ++ [ConsoleError message detail].
Proof. unfold console_lines. by rewrite List.filter_app. Qed.

Lemma console_lines_request l key request :
  console_lines (l ++ [GenerateContent key request]) = console_lines l.
Proof. unfold console_lines. rewrite List.filter_app. simpl. by rewrite app_nil_r. Qed.

(** The [try] block writes nothing to the console; it adds the request to the
    log and nothing else. *)
Lemma request_and_parse_log key lessonText w st :
  log (request_and_parse key lessonText w st).2
  = log st ++ [GenerateContent key (request_for lessonText)].
Proof.
  rewrite request_and_parse_run.
  destruct (service w _ key _) as [reason|[text|]]; [done| |done].
  destruct (JSON_parse (trim text)) as [parsed|]; [|done].
  destruct (accepted parsed) eqn:Hacc.
  - by rewrite three_assignments_accepted.
  - by destruct (three_assignments_refused parsed w
                   (after_request st key lessonText) Hacc) as [n ->].
Qed.

(** X9. A call that returns leaves the console as it was.  A call that
    fails writes exactly one line to it, except where [process] exists
    without an [env]: the TypeError of line 11 is thrown before anything is
    written. *)
Theorem console_is_written_once_on_reported_failure rt lessonText w st :
  match analyzeLessonPlanWithGemini rt lessonText w st with
  | (inr _, st') => console_lines (log st') = console_lines (log st)
  | (inl e, st') =>
    (rt = ProcessWithoutEnv ∧ e = TypeError
     ∧ console_lines (log st') = console_lines (log st))
    ∨ (rt ≠ ProcessWithoutEnv
       ∧ ∃ message detail,
           console_lines (log st')
           = console_lines (log st) ++ [ConsoleError message detail])
  end.
Proof.
  destruct (with_env_or_without rt) as [->|Henv].
  { rewrite analyze_without_env. by left. }
  destruct (credential rt) as [key|] eqn:Hkey.
  - rewrite (analyze_configured _ key) by done.
    pose proof (request_and_parse_log key lessonText w st) as Hlog.
    destruct (request_and_parse key lessonText w st) as [[error|plan] st1];
      simpl in Hlog.
    + right. split; [done|]. exists failure_log, (Some error). simpl.
      by rewrite console_lines_console, Hlog, console_lines_request.
    + by rewrite Hlog, console_lines_request.
  - rewrite analyze_unconfigured by done.
    right. split; [done|]. exists missing_key_log, None. simpl.
    apply console_lines_console.
Qed.

(** X10. In every returned plan each of the three objective properties is an
    array without further properties, whatever the reply held under that
    name. *)
Theorem lists_are_always_arrays rt lessonText w st plan st' name :
  analyzeLessonPlanWithGemini rt lessonText w st = (inr plan, st') →
  name ∈ [cognitiveObjectives; psychomotorObjectives; affectiveObjectives] →
  ∃ items, own_property plan name = Some (VArr items ∅).
Proof.
  intros (key & text & parsed & _ & _ & _ & Hacc & -> & _)%analyze_returns Hname.
  eexists. by apply labelled_property.
Qed.

Lemma lists_are_always_arrays_witness :
  ∃ plan st',
    analyzeLessonPlanWithGemini configured [] (replying frozen falsy_lists) initial
    = (inr plan, st')
    ∧ ∃ items, own_property plan psychomotorObjectives = Some (VArr items ∅).
Proof.
  eexists _, _. split; [vm_compute; reflexivity|].
  eapply (lists_are_always_arrays configured [] (replying frozen falsy_lists) initial).
  - vm_compute; reflexivity.
  - right; left.
Defined.

Lemma or_empty_array_falsy v : ToBoolean v = false → or_empty_array v = VArr [] ∅.
Proof. intros H. destruct v as [x|]; [|done]. unfold or_empty_array. by rewrite H. Qed.

(** X11. Not only a missing objective property, but any falsy one (null,
    false, the number zero, the empty string) comes back as the empty
    array. *)
Theorem falsy_list_is_empty rt lessonText w st key text parsed name plan st' :
  credential rt = Some key →
  service w (length (requests (log st))) key (request_for lessonText)
    = Responds (Some text) →
  JSON_parse (trim text) = Some parsed →
  name ∈ [cognitiveObjectives; psychomotorObjectives; affectiveObjectives] →
  ToBoolean (own_property parsed name) = false →
  analyzeLessonPlanWithGemini rt lessonText w st = (inr plan, st') →
  own_property plan name = Some (VArr [] ∅).
Proof.
  intros Hkey Hs Hp Hname Hfalsy
    (key' & text' & parsed' & Hkey' & Hs' & Hp' & Hacc & -> & _)%analyze_returns.
  assert (parsed' = parsed) as -> by congruence.
  rewrite labelled_property by done. do 2 f_equal.
  apply nil_length_inv. rewrite length_objectives_labelled by done.
  unfold sent_objectives. by rewrite or_empty_array_falsy.
Qed.

Lemma falsy_list_is_empty_witness :
  ∃ plan st',
    analyzeLessonPlanWithGemini configured [] (replying frozen falsy_lists) initial
    = (inr plan, st')
    ∧ (λ parsed, own_property parsed psychomotorObjectives)
        <$> JSON_parse (trim falsy_lists) = Some (Some (VNum false 0 0))
    ∧ own_property plan psychomotorObjectives = Some (VArr [] ∅).
Proof.
  eexists _, _. split; [vm_compute; reflexivity|].
  split; [vm_compute; reflexivity|].
  eapply (falsy_list_is_empty configured [] (replying frozen falsy_lists) initial
            _ falsy_lists _ psychomotorObjectives);
    [vm_compute; reflexivity | vm_compute; reflexivity | vm_compute; reflexivity
    | right; left | vm_compute; reflexivity | vm_compute; reflexivity].
Defined.

(** X12. An element that is null, a boolean or a number, not an object,
    still becomes an objective: an object whose only property is the id. *)
Theorem primitive_element_gets_only_id rt lessonText w st plan st' :
  analyzeLessonPlanWithGemini rt lessonText w st = (inr plan, st') →
  ∃ key text parsed,
    credential rt = Some key
    ∧ service w (length (requests (log st))) key (request_for lessonText)
      = Responds (Some text)
    ∧ JSON_parse (trim text) = Some parsed
    ∧ ∀ name prefix i o,
        (name, prefix) ∈ objective_lists →
        sent_objectives parsed name !! i = Some o →
        o = VNull ∨ (∃ b, o = VBool b) ∨ (∃ s m e, o = VNum s m e) →
        ∃ id, objectives_of plan name !! i
              = Some (VObj (<[utf16 "id" := VStr id]> ∅)).
Proof.
  intros (key & text & parsed & Hkey & Hs & Hp & Hacc & -> & ->)%analyze_returns.
  exists key, text, parsed. split_and!; [done..|].
  intros name prefix i o Hname Ho Hprim.
  destruct (labelled_objective_sent w (clock_reads st) parsed name prefix i o
              Hacc Hname Ho) as (k & _ & Hlookup).
  eexists. rewrite Hlookup. unfold object_with_id.
  by destruct Hprim as [->|[[b ->]|(s & m & e & ->)]].
Qed.

Lemma primitive_element_gets_only_id_witness :
  ∃ plan st',
    analyzeLessonPlanWithGemini configured []
      (replying frozen primitive_elements) initial = (inr plan, st')
    ∧ objectives_of plan cognitiveObjectives
      = [VObj (<[utf16 "id" := VStr (utf16 "cog-1700000000000-0")]> ∅);
         VObj (<[utf16 "id" := VStr (utf16 "cog-1700000000000-1")]> ∅);
         VObj (<[utf16 "id" := VStr (utf16 "cog-1700000000000-2")]> ∅)]
    ∧ ∃ key text parsed,
        credential configured = Some key
        ∧ service (replying frozen primitive_elements)
            (length (requests (log initial))) key (request_for [])
          = Responds (Some text)
        ∧ JSON_parse (trim text) = Some parsed
        ∧ ∀ name prefix i o,
            (name, prefix) ∈ objective_lists →
            sent_objectives parsed name !! i = Some o →
            o = VNull ∨ (∃ b, o = VBool b) ∨ (∃ s m e, o = VNum s m e) →
            ∃ id, objectives_of plan name !! i
                  = Some (VObj (<[utf16 "id" := VStr id]> ∅)).
Proof.
  eexists _, _. split; [vm_compute; reflexivity|].
  split; [vm_compute; reflexivity|].
  eapply (primitive_element_gets_only_id configured []
            (replying frozen primitive_elements) initial).
  vm_compute; reflexivity.
Defined.

(** ** The module constant *)

Lemma digit_is_sign_or_digit d : sign_or_digit (pretty_N_char d).
Proof.
  unfold pretty_N_char, sign_or_digit.
  repeat case_match; right; split; intros Hcmp; vm_compute in Hcmp; discriminate.
Qed.

Lemma pretty_N_go_chars x s :
  Forall sign_or_digit (list_ascii_of_string s) →
  Forall sign_or_digit (list_ascii_of_string (pretty_N_go x s)).
Proof.
  revert s. induction (N.lt_wf_0 x) as [x _ IH]; intros s Hs.
  destruct (decide (x = 0)%N) as [->|Hx]; [by rewrite pretty_N_go_0|].
  rewrite pretty_N_go_step by lia.
  apply IH; [apply N.div_lt; lia|].
  simpl. constructor; [apply digit_is_sign_or_digit|done].
Qed.

Lemma pretty_N_chars (x : N) :
  Forall sign_or_digit (list_ascii_of_string (pretty x)).
Proof.
  unfold pretty, pretty_N. case_decide.
  - apply (Forall_cons_2 _ _ _ (digit_is_sign_or_digit 0)). constructor.
  - apply pretty_N_go_chars. constructor.
Qed.

(** A printed integer consists of digits and at most a sign. *)
Lemma Number_toString_chars z c :
  c ∈ Number_toString z → (c = 45 ∨ 48 ≤ c ≤ 57)%N.
Proof.
  unfold Number_toString, ascii_units. rewrite list_elem_of_fmap.
  intros (a & -> & Hin). revert a Hin. apply Forall_forall.
  destruct z as [|p|p].
  - apply (pretty_N_chars 0).
  - apply (pretty_N_chars (Npos p)).
  - change (pretty (Z.neg p)) with ("-" +:+ pretty (Npos p)).
    simpl. constructor; [left; reflexivity|apply (pretty_N_chars (Npos p))].
Qed.

(** X13. The id of [initialObjective] is the moment the module was loaded,
    printed; no objective of a returned plan ever has that id, whenever the
    module was loaded and whatever the clock shows during the call. *)
Theorem initial_objective_id_is_never_reused rt lessonText w st plan st' loaded o :
  analyzeLessonPlanWithGemini rt lessonText w st = (inr plan, st') →
  o ∈ all_objectives plan →
  id_of (initialObjective loaded) = Some (Number_toString loaded)
  ∧ id_of o ≠ id_of (initialObjective loaded).
Proof.
  intros (key & text & parsed & _ & _ & _ & Hacc & -> & _)%analyze_returns Ho.
  assert (id_of (initialObjective loaded) = Some (Number_toString loaded)) as Hinit.
  { unfold id_of, initialObjective. simpl. by rewrite lookup_insert_eq. }
  split; [done|]. rewrite Hinit. intros Hid.
  assert (Number_toString loaded ∈ plan_ids (labelled w (clock_reads st) parsed))
    as Hin.
  { unfold plan_ids. apply list_elem_of_omap. eauto. }
  apply plan_id_origin in Hin as (name & prefix & k & i & Hname & _ & E); [|done].
  assert (∃ c rest, prefix = c :: rest ∧ c ∈ [99; 112; 97]%N) as (c & rest & -> & Hc).
  { unfold objective_lists in Hname. rewrite !elem_of_cons, elem_of_nil in Hname.
    destruct Hname as [[= _ ->]|[[= _ ->]|[[= _ ->]|[]]]];
      eexists _, _; (split; [vm_compute; reflexivity|]);
      rewrite !elem_of_cons; auto. }
  assert (c ∈ Number_toString loaded) as Hchar.
  { rewrite E. unfold id_template. simpl. left. }
  apply Number_toString_chars in Hchar.
  rewrite !elem_of_cons, elem_of_nil in Hc. lia.
Qed.

Lemma initial_objective_id_is_never_reused_witness :
  ∃ plan st' o,
    analyzeLessonPlanWithGemini configured [] (replying frozen one_objective) initial
    = (inr plan, st')
    ∧ all_objectives plan = [o]
    ∧ id_of (initialObjective 1700000000000) = Some (Number_toString 1700000000000)
    ∧ id_of o ≠ id_of (initialObjective 1700000000000).
Proof.
  eexists _, _, _. split; [vm_compute; reflexivity|].
  split; [vm_compute; reflexivity|].
  eapply (initial_objective_id_is_never_reused configured []
            (replying frozen one_objective) initial).
  - vm_compute; reflexivity.
  - vm_compute. left.
Defined.
